(** * MCP2515 SPI driver (mcp2515.c / mcp2515.h): shallow embedding and properties

    The driver talks to memory-mapped AVR registers.  A run of the driver is
    modelled by explicit state passing over a [world]: the special-function
    registers of the microcontroller, the attached controller chip, and the
    trace of everything the driver did to the outside (register stores, byte
    exchanges, delays).  The only loop of the program, the busy-wait of
    [sendData], is written with fuel; running out of fuel stands for a call
    that has not returned yet. *)

From Stdlib Require Import ZArith List Bool Lia.
Import ListNotations.
Local Open Scope Z_scope.

(** ** Constants of the source *)

(* mcp2515.c, lines 6-12 *)
Definition CHIP_SELECT   : Z := 2.
Definition INTERRUPT_LOW : Z := 2.
Definition SERIAL_CLK    : Z := 5.
Definition MOSI          : Z := 4.
Definition MISO          : Z := 3.
Definition FILLER        : Z := 255.   (* 0xFF *)

(* mcp2515.h, lines 7-15 *)
Definition SPI_RESET       : Z := 192. (* 0xC0 *)
Definition SPI_READ        : Z := 3.   (* 0x03 *)
Definition SPI_READ_RX     : Z := 144. (* 0x90 *)
Definition SPI_WRITE       : Z := 2.   (* 0x02 *)
Definition SPI_WRITE_RX    : Z := 64.  (* 0x40 *)
Definition SPI_RTS         : Z := 128. (* 0x80 *)
Definition SPI_READ_STATUS : Z := 160. (* 0xA0 *)
Definition SPI_RX_STATUS   : Z := 176. (* 0xB0 *)
Definition SPI_BIT_MODIFY  : Z := 5.   (* 0x05 *)

(** Names the driver uses without defining them: the bit positions of
    <avr/io.h> and the register address [CNF3] and bit [PHSEG21] of the
    controller's register map.  No file of the repository gives their values,
    so they are parameters of the development. *)
Class Board : Type := {
  SPIF : Z;
  SPE  : Z;
  DORD : Z;
  MSTR : Z;
  SPR1 : Z;
  SPR0 : Z;
  CNF3 : Z;
  PHSEG21 : Z
}.

(** ** C arithmetic on [uint8_t] *)

(** Conversion to [uint8_t]: every store to an 8-bit register wraps. *)
Definition u8 (x : Z) : Z := x mod 256.

(** The C operator [!]. *)
Definition c_not (x : Z) : Z := if x =? 0 then 1 else 0.

(** [1 << n] *)
Definition bit (n : Z) : Z := Z.shiftl 1 n.

(** ** The machine *)

(** The special-function registers the driver touches. *)
Inductive reg : Set :=
  PORTB | DDRB | PORTD | DDRD | PIND | SPCR | SPSR | SPDR.

Definition reg_eq_dec (a b : reg) : {a = b} + {a <> b}.
Proof. decide equality. Defined.

Definition upd {K : Type} (eqd : forall a b : K, {a = b} + {a <> b})
  (f : K -> Z) (k : K) (v : Z) : K -> Z :=
  fun k' => if eqd k' k then v else f k'.

(** What the driver does to the outside, in program order. *)
Inductive event : Set :=
| Wr (r : reg) (v : Z)                    (* store of [v] to register [r] *)
| Xfer (selected : bool) (tx rx : Z)      (* store to SPDR: one byte exchange *)
| Delay (us : Z).                         (* _delay_us *)

(** *** The controller chip

    Modelled from the spec: the MCP2515 itself is hardware, no code of the
    repository describes it.  The model follows the protocol table of the
    specification (section 6) and the semantics of section 4.3: one opcode
    opens a command, the opcode fixes how many bytes follow and what they
    mean; WRITE stores the value byte, READ answers the filler byte with the
    register's value, BIT-MODIFY replaces the bits selected by the mask,
    READ-STATUS answers the filler byte with a status byte, RESET restores
    the default register state.  Bytes after a complete command, and opcodes
    the driver never sends, are ignored until chip-select is released. *)
Inductive phase : Set :=
| Idle                       (* waiting for an opcode *)
| RdAddr | RdData (a : Z)
| WrAddr | WrData (a : Z)
| BmAddr | BmMask (a : Z) | BmData (a m : Z)
| StData (op : Z)
| Done.                      (* command complete *)

Record chip : Type := Chip { regs : Z -> Z; ph : phase }.

(** Modelled from the spec: what the hardware around the driver does and the
    program cannot know.  [spsr_poll n k] is the value the status register
    SPSR shows at the [k]-th read after the [n]-th store to SPDR;
    [undriven] is the byte shifted in while the chip does not answer;
    [power_on] is the chip's default register state; [status_of] is the
    chip-defined status byte of the two READ-STATUS variants. *)
Class Bench : Type := {
  spsr_poll : nat -> nat -> Z;
  undriven  : Z;
  power_on  : Z -> Z;
  status_of : (Z -> Z) -> Z -> Z
}.

Record world : Type := World {
  sfr   : reg -> Z;        (* register contents *)
  dev   : chip;            (* the attached controller *)
  bus   : list event;      (* trace, oldest first *)
  xfers : nat              (* stores to SPDR so far *)
}.

Section Driver.
Context {board : Board} {bench : Bench}.

(** Modelled from the spec: one byte clocked into the selected chip. *)
Definition chip_byte (c : chip) (tx : Z) : Z * chip :=
  match ph c with
  | Idle =>
      if tx =? SPI_RESET then (undriven, Chip power_on Done)
      else if tx =? SPI_READ then (undriven, Chip (regs c) RdAddr)
      else if tx =? SPI_WRITE then (undriven, Chip (regs c) WrAddr)
      else if tx =? SPI_BIT_MODIFY then (undriven, Chip (regs c) BmAddr)
      else if (tx =? SPI_READ_STATUS) || (tx =? SPI_RX_STATUS)
           then (undriven, Chip (regs c) (StData tx))
      else (undriven, Chip (regs c) Done)
  | RdAddr => (undriven, Chip (regs c) (RdData tx))
  | RdData a => (regs c a, Chip (regs c) Done)
  | WrAddr => (undriven, Chip (regs c) (WrData tx))
  | WrData a => (undriven, Chip (upd Z.eq_dec (regs c) a tx) Done)
  | BmAddr => (undriven, Chip (regs c) (BmMask tx))
  | BmMask a => (undriven, Chip (regs c) (BmData a tx))
  | BmData a m =>
      (undriven,
       Chip (upd Z.eq_dec (regs c) a
               (Z.lor (Z.land (regs c a) (Z.lnot m)) (Z.land tx m))) Done)
  | StData op => (status_of (regs c) op, Chip (regs c) Done)
  | Done => (undriven, c)
  end.

(** Modelled from the spec: the chip-select line seen by the chip.  A high
    level closes the command in progress. *)
Definition chip_cs (level : bool) (c : chip) : chip :=
  if level then Chip (regs c) Idle else c.

(** Chip-select is bit [CHIP_SELECT] of PORTB, active low. *)
Definition cs_asserted (w : world) : bool :=
  negb (Z.testbit (sfr w PORTB) CHIP_SELECT).

(** *** Register access

    A store wraps to eight bits and is recorded in the trace.  A store to
    PORTB moves the chip-select line; a store to SPDR shifts the byte out and
    the chip's answer in.  A load returns the register's content; SPSR, whose
    flag is set by the hardware, is read by [poll_SPSR]. *)
Definition store_world (r : reg) (v : Z) (w : world) : world :=
  let v8 := u8 v in
  match r with
  | SPDR =>
      let sel := cs_asserted w in
      let '(rx, c') := if sel then chip_byte (dev w) v8 else (undriven, dev w) in
      World (upd reg_eq_dec (sfr w) SPDR rx) c'
            (bus w ++ [Xfer sel v8 rx]) (S (xfers w))
  | PORTB =>
      World (upd reg_eq_dec (sfr w) PORTB v8)
            (chip_cs (Z.testbit v8 CHIP_SELECT) (dev w))
            (bus w ++ [Wr PORTB v8]) (xfers w)
  | _ =>
      World (upd reg_eq_dec (sfr w) r v8) (dev w)
            (bus w ++ [Wr r v8]) (xfers w)
  end.


(** *** The monad of the driver: state, and [None] for "has not returned". *)
Definition M (A : Type) : Type := world -> option (A * world).

Definition ret {A : Type} (a : A) : M A := fun w => Some (a, w).

Definition bind {A B : Type} (m : M A) (k : A -> M B) : M B :=
  fun w => match m w with
           | Some (a, w') => k a w'
           | None => None
           end.

Definition load (r : reg) : M Z := fun w => Some (sfr w r, w).

(** The [k]-th read of SPSR after the latest store to SPDR. *)
Definition poll_SPSR (k : nat) : M Z := fun w => Some (spsr_poll (xfers w) k, w).
Definition store (r : reg) (v : Z) : M unit := fun w => Some (tt, store_world r v w).

End Driver.

Declare Scope drv_scope.
Delimit Scope drv_scope with drv.
Notation "x <- m ;; k" := (bind m (fun x => k))
  (at level 61, m at next level, right associativity) : drv_scope.
Notation "m ;; k" := (bind m (fun _ => k))
  (at level 61, right associativity) : drv_scope.

Section Program.
Context {board : Board} {bench : Bench}.
Local Open Scope drv_scope.

(** [r &= v] and [r |= v] *)
Definition and_assign (r : reg) (v : Z) : M unit :=
  x <- load r ;; store r (Z.land x v).
Definition or_assign (r : reg) (v : Z) : M unit :=
  x <- load r ;; store r (Z.lor x v).

(** [_delay_us(us)] of <util/delay.h>: a blocking pause. *)
Definition _delay_us (us : Z) : M unit :=
  fun w => Some (tt, World (sfr w) (dev w) (bus w ++ [Delay us]) (xfers w)).

(** ** The functions of mcp2515.c *)

(* line 22 *)
Definition messageReceived : M Z :=
  x <- load PIND ;;
  ret (u8 (c_not (Z.land x (bit INTERRUPT_LOW)))).

(* line 39: while (!(SPSR & (1<<SPIF))) {;}
   [k] counts the reads of SPSR already made in this call. *)
Fixpoint wait_SPIF (fuel k : nat) : M unit :=
  match fuel with
  | O => fun _ => None
  | S fuel' =>
      s <- poll_SPSR k ;;
      if c_not (Z.land s (bit SPIF)) =? 0 then ret tt else wait_SPIF fuel' (S k)
  end.

(* line 37 *)
Definition sendData (fuel : nat) (data : Z) : M Z :=
  store SPDR data ;;
  wait_SPIF fuel 0 ;;
  load SPDR.

(* line 51 *)
Definition writeToRegister (fuel : nat) (address data : Z) : M unit :=
  and_assign PORTB (Z.lnot (bit CHIP_SELECT)) ;;
  sendData fuel SPI_WRITE ;;
  sendData fuel address ;;
  sendData fuel data ;;
  or_assign PORTB (bit CHIP_SELECT) ;;
  ret tt.

(* line 70 *)
Definition readRegister (fuel : nat) (address : Z) : M Z :=
  and_assign PORTB (Z.lnot (bit CHIP_SELECT)) ;;
  sendData fuel SPI_READ ;;
  sendData fuel address ;;
  data <- sendData fuel FILLER ;;
  or_assign PORTB (bit CHIP_SELECT) ;;
  ret data.

(* line 101 *)
Definition bitModify (fuel : nat) (address mask data : Z) : M unit :=
  and_assign PORTB (Z.lnot (bit CHIP_SELECT)) ;;
  sendData fuel SPI_BIT_MODIFY ;;
  sendData fuel address ;;
  sendData fuel mask ;;
  sendData fuel data ;;
  or_assign PORTB (bit CHIP_SELECT) ;;
  ret tt.

(* line 123 *)
Definition readStatus (fuel : nat) (readType : Z) : M Z :=
  and_assign PORTB (Z.lnot (bit CHIP_SELECT)) ;;
  sendData fuel readType ;;
  data <- sendData fuel FILLER ;;
  or_assign PORTB (bit CHIP_SELECT) ;;
  ret data.

(* line 141 *)
Definition resetController (fuel : nat) : M unit :=
  and_assign PORTB (Z.lnot (bit CHIP_SELECT)) ;;
  sendData fuel SPI_RESET ;;
  or_assign PORTB (bit CHIP_SELECT) ;;
  ret tt.

(* line 153 *)
Definition initController (fuel : nat) : M Z :=
  or_assign PORTB (bit CHIP_SELECT) ;;
  or_assign DDRB (bit CHIP_SELECT) ;;
  and_assign PORTB (Z.lnot (Z.lor (Z.lor (bit SERIAL_CLK) (bit MOSI)) (bit MISO))) ;;
  or_assign DDRB (Z.lor (bit SERIAL_CLK) (bit MOSI)) ;;
  and_assign DDRB (Z.lnot (bit MISO)) ;;
  and_assign DDRD (Z.lnot (bit INTERRUPT_LOW)) ;;
  or_assign PORTD (bit INTERRUPT_LOW) ;;
  store SPCR (Z.lor (Z.lor (Z.lor (Z.lor (Z.shiftl 1 SPE) (Z.shiftl 0 DORD))
                                  (Z.shiftl 1 MSTR)) (Z.shiftl 0 SPR1))
                    (Z.shiftl 1 SPR0)) ;;
  store SPSR 0 ;;
  resetController fuel ;;
  _delay_us 10 ;;
  and_assign PORTB (Z.lnot (bit CHIP_SELECT)) ;;
  sendData fuel SPI_WRITE ;;
  sendData fuel CNF3 ;;
  sendData fuel (bit PHSEG21) ;;
  load SPDR.

End Program.

(** ** A concrete board and two test benches *)

(** ATmega328P bit positions and the MCP2515 register map. *)
Definition uno : Board :=
  {| SPIF := 7; SPE := 6; DORD := 5; MSTR := 4; SPR1 := 1; SPR0 := 0;
     CNF3 := 40; PHSEG21 := 1 |}.

(** A bench whose transfers complete at the third poll. *)
Definition bench_ok : Bench :=
  {| spsr_poll := fun _ k => if (2 <=? k)%nat then 128 else 0;
     undriven := 255;
     power_on := fun _ => 0;
     status_of := fun r _ => r 44 |}.

(** A bench whose transfer-complete flag never rises. *)
Definition bench_stalled : Bench :=
  {| spsr_poll := fun _ _ => 0;
     undriven := 255;
     power_on := fun _ => 0;
     status_of := fun r _ => r 44 |}.

(** A world after power-up: all registers zero, except the input pins. *)
Definition w0 : world :=
  World (fun r => match r with PIND => 4 | _ => 0 end)
        (Chip (fun _ => 255) Idle) [] 0.

(** The same world with chip-select released: bit 2 of PORTB is 1. *)
Definition w_released : world :=
  World (fun r => match r with PIND | PORTB => 4 | _ => 0 end)
        (Chip (fun _ => 255) Idle) [] 0.

(** ** Vocabulary of the statements *)

Section Vocabulary.
Context {board : Board} {bench : Bench}.

(** The transfer-complete flag as the loop of [sendData] tests it, at the
    [k]-th read of SPSR during transfer number [n]. *)
Definition spif_at (n k : nat) : bool :=
  negb (Z.land (spsr_poll n k) (bit SPIF) =? 0).

(** Transfer [n] completes within [fuel] reads of SPSR. *)
Definition ready (fuel n : nat) : bool :=
  existsb (spif_at n) (seq 0 fuel).

(** The next [cnt] transfers after the [n] already made all complete within
    [fuel] reads each. *)
Definition responsive (fuel n cnt : nat) : bool :=
  forallb (ready fuel) (seq (S n) cnt).

(** The effect of the three kinds of statement the transactions are made of. *)
Definition select (w : world) : world :=
  store_world PORTB (Z.land (sfr w PORTB) (Z.lnot (bit CHIP_SELECT))) w.
Definition release (w : world) : world :=
  store_world PORTB (Z.lor (sfr w PORTB) (bit CHIP_SELECT)) w.
Definition exchange (d : Z) (w : world) : world :=
  store_world SPDR d w.

Definition pause (us : Z) (w : world) : world :=
  World (sfr w) (dev w) (bus w ++ [Delay us]) (xfers w).

(** The world each function leaves when it returns. *)
Definition after_write (a d : Z) (w : world) : world :=
  release (exchange d (exchange a (exchange SPI_WRITE (select w)))).
Definition after_read (a : Z) (w : world) : world :=
  release (exchange FILLER (exchange a (exchange SPI_READ (select w)))).
Definition after_bitModify (a m d : Z) (w : world) : world :=
  release (exchange d (exchange m (exchange a (exchange SPI_BIT_MODIFY (select w))))).
Definition after_status (t : Z) (w : world) : world :=
  release (exchange FILLER (exchange t (select w))).
Definition after_reset (w : world) : world :=
  release (exchange SPI_RESET (select w)).

(** Lines 156-181 of initController: pins and the SPI unit. *)
Definition setup (w : world) : world :=
  let w1 := release w in
  let w2 := store_world DDRB (Z.lor (sfr w1 DDRB) (bit CHIP_SELECT)) w1 in
  let w3 := store_world PORTB
              (Z.land (sfr w2 PORTB)
                 (Z.lnot (Z.lor (Z.lor (bit SERIAL_CLK) (bit MOSI)) (bit MISO)))) w2 in
  let w4 := store_world DDRB (Z.lor (sfr w3 DDRB) (Z.lor (bit SERIAL_CLK) (bit MOSI))) w3 in
  let w5 := store_world DDRB (Z.land (sfr w4 DDRB) (Z.lnot (bit MISO))) w4 in
  let w6 := store_world DDRD (Z.land (sfr w5 DDRD) (Z.lnot (bit INTERRUPT_LOW))) w5 in
  let w7 := store_world PORTD (Z.lor (sfr w6 PORTD) (bit INTERRUPT_LOW)) w6 in
  let w8 := store_world SPCR
              (Z.lor (Z.lor (Z.lor (Z.lor (Z.shiftl 1 SPE) (Z.shiftl 0 DORD))
                               (Z.shiftl 1 MSTR)) (Z.shiftl 0 SPR1))
                 (Z.shiftl 1 SPR0)) w7 in
  store_world SPSR 0 w8.

Definition after_init (w : world) : world :=
  exchange (bit PHSEG21)
    (exchange CNF3 (exchange SPI_WRITE (select (pause 10 (after_reset (setup w)))))).

(** The chip waits for an opcode: the state every release of chip-select
    leaves it in. *)
Definition chip_idle (w : world) : Prop := ph (dev w) = Idle.

(** The chip is between commands: waiting for an opcode, or done with one. *)
Definition chip_settled (w : world) : bool :=
  match ph (dev w) with Idle | Done => true | _ => false end.

(** [x] fits a [uint8_t]. *)
Definition byte (x : Z) : Prop := 0 <= x < 256.

(** The events [w'] has seen after [w]. *)
Definition since (w w' : world) (tr : list event) : Prop :=
  bus w' = bus w ++ tr.

(** A well-formed transaction: the first event drives chip-select low, the
    last one drives it high, and everything between is a byte exchange made
    while chip-select is low. *)
Definition drives_cs (level : bool) (e : event) : bool :=
  match e with
  | Wr PORTB v => Bool.eqb (Z.testbit v CHIP_SELECT) level
  | _ => false
  end.
Definition selected_xfer (e : event) : bool :=
  match e with Xfer sel _ _ => sel | _ => false end.
Definition framed (tr : list event) : bool :=
  match tr with
  | [] => false
  | e :: rest =>
      drives_cs false e &&
      match rev rest with
      | [] => false
      | l :: mid => drives_cs true l && forallb selected_xfer mid
      end
  end.

(** The stores of lines 156-181 of initController, with the values they
    write, in program order. *)
Definition setup_trace (w : world) : list event :=
  let p1 := u8 (Z.lor (sfr w PORTB) (bit CHIP_SELECT)) in
  let d1 := u8 (Z.lor (sfr w DDRB) (bit CHIP_SELECT)) in
  let p2 := u8 (Z.land p1 (Z.lnot (Z.lor (Z.lor (bit SERIAL_CLK) (bit MOSI)) (bit MISO)))) in
  let d2 := u8 (Z.lor d1 (Z.lor (bit SERIAL_CLK) (bit MOSI))) in
  let d3 := u8 (Z.land d2 (Z.lnot (bit MISO))) in
  [ Wr PORTB p1; Wr DDRB d1; Wr PORTB p2; Wr DDRB d2; Wr DDRB d3;
    Wr DDRD (u8 (Z.land (sfr w DDRD) (Z.lnot (bit INTERRUPT_LOW))));
    Wr PORTD (u8 (Z.lor (sfr w PORTD) (bit INTERRUPT_LOW)));
    Wr SPCR (u8 (Z.lor (Z.lor (Z.lor (Z.lor (Z.shiftl 1 SPE) (Z.shiftl 0 DORD))
                                 (Z.shiftl 1 MSTR)) (Z.shiftl 0 SPR1))
                   (Z.shiftl 1 SPR0)));
    Wr SPSR 0 ].

(** A call of one of the four register-access functions took [w] to [w']. *)
Inductive access_returns : world -> world -> Prop :=
| write_returns fuel a d w w' :
    writeToRegister fuel a d w = Some (tt, w') -> access_returns w w'
| read_returns fuel a v w w' :
    readRegister fuel a w = Some (v, w') -> access_returns w w'
| bitModify_returns fuel a m d w w' :
    bitModify fuel a m d w = Some (tt, w') -> access_returns w w'
| status_returns fuel t v w w' :
    readStatus fuel t w = Some (v, w') -> access_returns w w'.

(** A call of a function that is one whole transaction took [w] to [w']. *)
Inductive transaction_returns : world -> world -> Prop :=
| access_transaction w w' :
    access_returns w w' -> transaction_returns w w'
| reset_transaction fuel w w' :
    resetController fuel w = Some (tt, w') -> transaction_returns w w'.


End Vocabulary.

(** ** Bits *)

Lemma u8_testbit (x i : Z) :
  Z.testbit (u8 x) i = (i <? 8) && Z.testbit x i.
Proof.
  unfold u8. change 256 with (2 ^ 8).
  destruct (Z.ltb_spec i 8) as [Hlt | Hge]; cbn [andb].
  - destruct (Z.ltb_spec i 0) as [Hn | Hp].
    + now rewrite !Z.testbit_neg_r.
    + apply Z.mod_pow2_bits_low; lia.
  - apply Z.mod_pow2_bits_high; lia.
Qed.

Lemma bit_testbit (n i : Z) :
  0 <= n -> Z.testbit (bit n) i = (n =? i).
Proof.
  intros Hn. unfold bit. rewrite Z.shiftl_1_l. now apply Z.pow2_bits_eqb.
Qed.

Lemma land_bit_eq0 (x n : Z) :
  0 <= n -> (Z.land x (bit n) =? 0) = negb (Z.testbit x n).
Proof.
  intros Hn.
  assert (E : Z.land x (bit n) = if Z.testbit x n then bit n else 0).
  { apply Z.bits_inj'. intros i Hi.
    rewrite Z.land_spec, bit_testbit by assumption.
    destruct (Z.eqb_spec n i) as [-> | Hne].
    - destruct (Z.testbit x i) eqn:E; simpl.
      + now rewrite bit_testbit, Z.eqb_refl.
      + now rewrite Z.bits_0.
    - rewrite andb_false_r.
      destruct (Z.testbit x n).
      + rewrite bit_testbit by assumption. symmetry. now apply Z.eqb_neq.
      + now rewrite Z.bits_0. }
  rewrite E. destruct (Z.testbit x n); simpl.
  - apply Z.eqb_neq. unfold bit. rewrite Z.shiftl_1_l.
    apply Z.pow_nonzero; lia.
  - reflexivity.
Qed.

Lemma select_bit (p : Z) :
  Z.testbit (u8 (Z.land p (Z.lnot (bit CHIP_SELECT)))) CHIP_SELECT = false.
Proof.
  rewrite u8_testbit, Z.land_spec, Z.lnot_spec by (unfold CHIP_SELECT; lia).
  rewrite bit_testbit by (unfold CHIP_SELECT; lia).
  rewrite Z.eqb_refl. simpl. now rewrite andb_false_r.
Qed.

Lemma release_bit (p : Z) :
  Z.testbit (u8 (Z.lor p (bit CHIP_SELECT))) CHIP_SELECT = true.
Proof.
  rewrite u8_testbit, Z.lor_spec.
  rewrite bit_testbit by (unfold CHIP_SELECT; lia).
  rewrite Z.eqb_refl. now rewrite orb_true_r.
Qed.

(** Clearing then setting bit [CHIP_SELECT] touches no other bit of a byte. *)
Lemma select_release_other_bits (p i : Z) :
  0 <= i < 8 -> i <> CHIP_SELECT ->
  Z.testbit (u8 (Z.lor (u8 (Z.land p (Z.lnot (bit CHIP_SELECT)))) (bit CHIP_SELECT))) i
  = Z.testbit p i.
Proof.
  intros Hi Hne.
  rewrite u8_testbit, Z.lor_spec, u8_testbit, Z.land_spec, Z.lnot_spec by lia.
  rewrite bit_testbit by (unfold CHIP_SELECT; lia).
  replace (i <? 8) with true by (symmetry; apply Z.ltb_lt; lia).
  replace (CHIP_SELECT =? i) with false by (symmetry; apply Z.eqb_neq; congruence).
  simpl. now rewrite andb_true_r, orb_false_r.
Qed.

(** ** Stores, exchanges and the busy-wait *)

Section Steps.
Context {board : Board} {bench : Bench}.

Lemma upd_same {K : Type} (eqd : forall a b : K, {a = b} + {a <> b}) f k v :
  upd eqd f k v k = v.
Proof. unfold upd. destruct (eqd k k); congruence. Qed.

Lemma upd_other {K : Type} (eqd : forall a b : K, {a = b} + {a <> b}) f k v k' :
  k' <> k -> upd eqd f k v k' = f k'.
Proof. unfold upd. destruct (eqd k' k); congruence. Qed.

Lemma exchange_eq (d : Z) (w : world) :
  exchange d w =
  let r := if cs_asserted w then chip_byte (dev w) (u8 d) else (undriven, dev w) in
  World (upd reg_eq_dec (sfr w) SPDR (fst r)) (snd r)
        (bus w ++ [Xfer (cs_asserted w) (u8 d) (fst r)]) (S (xfers w)).
Proof.
  unfold exchange, store_world.
  destruct (if cs_asserted w then chip_byte (dev w) (u8 d) else (undriven, dev w));
    reflexivity.
Qed.

Lemma sfr_store_other (r r' : reg) (v : Z) (w : world) :
  r <> r' -> sfr (store_world r' v w) r = sfr w r.
Proof.
  intros Hne.
  destruct r'; try (unfold store_world; cbn [sfr]; apply upd_other; assumption).
  fold (exchange v w). rewrite exchange_eq. cbn [sfr]. now apply upd_other.
Qed.

Lemma sfr_select_PORTB w :
  sfr (select w) PORTB = u8 (Z.land (sfr w PORTB) (Z.lnot (bit CHIP_SELECT))).
Proof. unfold select, store_world. cbn [sfr]. apply upd_same. Qed.

Lemma sfr_release_PORTB w :
  sfr (release w) PORTB = u8 (Z.lor (sfr w PORTB) (bit CHIP_SELECT)).
Proof. unfold release, store_world. cbn [sfr]. apply upd_same. Qed.

Lemma sfr_select_other r w : r <> PORTB -> sfr (select w) r = sfr w r.
Proof. apply sfr_store_other. Qed.

Lemma sfr_release_other r w : r <> PORTB -> sfr (release w) r = sfr w r.
Proof. apply sfr_store_other. Qed.

Lemma sfr_exchange_other d r w : r <> SPDR -> sfr (exchange d w) r = sfr w r.
Proof. apply sfr_store_other. Qed.

Lemma cs_asserted_select w : cs_asserted (select w) = true.
Proof. unfold cs_asserted. now rewrite sfr_select_PORTB, select_bit. Qed.


Lemma cs_asserted_exchange d w : cs_asserted (exchange d w) = cs_asserted w.
Proof. unfold cs_asserted. rewrite sfr_exchange_other; [reflexivity | discriminate]. Qed.

Lemma dev_select w : dev (select w) = dev w.
Proof. unfold select, store_world. cbn [dev]. now rewrite select_bit. Qed.

Lemma dev_release w : dev (release w) = Chip (regs (dev w)) Idle.
Proof. unfold release, store_world. cbn [dev]. now rewrite release_bit. Qed.

Lemma dev_exchange d w :
  dev (exchange d w) =
  if cs_asserted w then snd (chip_byte (dev w) (u8 d)) else dev w.
Proof. rewrite exchange_eq. cbn [dev]. now destruct (cs_asserted w). Qed.

Lemma rx_exchange d w :
  sfr (exchange d w) SPDR =
  if cs_asserted w then fst (chip_byte (dev w) (u8 d)) else undriven.
Proof.
  rewrite exchange_eq. cbn [sfr]. rewrite upd_same. now destruct (cs_asserted w).
Qed.

Lemma bus_select w :
  bus (select w) = bus w ++ [Wr PORTB (sfr (select w) PORTB)].
Proof. rewrite sfr_select_PORTB. reflexivity. Qed.

Lemma bus_release w :
  bus (release w) = bus w ++ [Wr PORTB (sfr (release w) PORTB)].
Proof. rewrite sfr_release_PORTB. reflexivity. Qed.

Lemma bus_exchange d w :
  bus (exchange d w) =
  bus w ++ [Xfer (cs_asserted w) (u8 d) (sfr (exchange d w) SPDR)].
Proof. rewrite exchange_eq. cbn [bus sfr]. now rewrite upd_same. Qed.

Lemma xfers_select w : xfers (select w) = xfers w.
Proof. reflexivity. Qed.

Lemma xfers_release w : xfers (release w) = xfers w.
Proof. reflexivity. Qed.

Lemma xfers_exchange d w : xfers (exchange d w) = S (xfers w).
Proof. rewrite exchange_eq. reflexivity. Qed.

(** *** The busy-wait *)

Lemma spif_exit (s : Z) (n k : nat) :
  s = spsr_poll n k ->
  (c_not (Z.land s (bit SPIF)) =? 0) = spif_at n k.
Proof.
  intros ->. unfold spif_at, c_not.
  now destruct (Z.land (spsr_poll n k) (bit SPIF) =? 0).
Qed.

Lemma wait_SPIF_inv fuel : forall k w u w',
  wait_SPIF fuel k w = Some (u, w') -> w' = w.
Proof.
  induction fuel as [| fuel IH]; intros k w u w' H; [discriminate |].
  cbn in H. unfold bind, poll_SPSR in H.
  rewrite (spif_exit _ (xfers w) k eq_refl) in H.
  destruct (spif_at (xfers w) k).
  - now inversion H.
  - now apply IH in H.
Qed.

Lemma wait_SPIF_enough fuel : forall k j w,
  spif_at (xfers w) (k + j) = true -> (j < fuel)%nat ->
  wait_SPIF fuel k w = Some (tt, w).
Proof.
  induction fuel as [| fuel IH]; intros k j w Hset Hlt; [lia |].
  cbn. unfold bind, poll_SPSR.
  rewrite (spif_exit _ (xfers w) k eq_refl).
  destruct (spif_at (xfers w) k) eqn:E; [reflexivity |].
  destruct j as [| j].
  - rewrite Nat.add_0_r in Hset. congruence.
  - apply (IH (S k) j); [| lia].
    now replace (S k + j)%nat with (k + S j)%nat by lia.
Qed.

Lemma wait_SPIF_never fuel : forall k w,
  (forall j, spif_at (xfers w) j = false) ->
  wait_SPIF fuel k w = None.
Proof.
  induction fuel as [| fuel IH]; intros k w Hn; [reflexivity |].
  cbn. unfold bind, poll_SPSR.
  rewrite (spif_exit _ (xfers w) k eq_refl), Hn. now apply IH.
Qed.

Lemma ready_spec fuel n :
  ready fuel n = true <-> exists j, (j < fuel)%nat /\ spif_at n j = true.
Proof.
  unfold ready. rewrite existsb_exists. split.
  - intros [j [Hin Hj]]. apply in_seq in Hin. exists j. split; [lia | assumption].
  - intros [j [Hlt Hj]]. exists j. split; [apply in_seq; lia | assumption].
Qed.

(** *** One call of [sendData] *)

Lemma sendData_inv fuel d w r w' :
  sendData fuel d w = Some (r, w') ->
  w' = exchange d w /\ r = sfr (exchange d w) SPDR.
Proof.
  unfold sendData, bind, store, load. fold (exchange d w).
  destruct (wait_SPIF fuel 0 (exchange d w)) as [[u w1] |] eqn:E; [| discriminate].
  apply wait_SPIF_inv in E. subst w1. intros H. now inversion H.
Qed.

Lemma sendData_enough fuel d w j :
  spif_at (S (xfers w)) j = true -> (j < fuel)%nat ->
  sendData fuel d w = Some (sfr (exchange d w) SPDR, exchange d w).
Proof.
  intros Hset Hlt. unfold sendData, bind, store, load. fold (exchange d w).
  rewrite (wait_SPIF_enough fuel 0 j); [reflexivity | | assumption].
  now rewrite xfers_exchange.
Qed.

Lemma sendData_never fuel d w :
  (forall j, spif_at (S (xfers w)) j = false) ->
  sendData fuel d w = None.
Proof.
  intros Hn. unfold sendData, bind, store, load. fold (exchange d w).
  rewrite wait_SPIF_never; [reflexivity |].
  now rewrite xfers_exchange.
Qed.

(** *** Stepping through a function body *)

Lemma bind_and_assign {B} r v (k : unit -> M B) w :
  bind (and_assign r v) k w = k tt (store_world r (Z.land (sfr w r) v) w).
Proof. reflexivity. Qed.

Lemma bind_or_assign {B} r v (k : unit -> M B) w :
  bind (or_assign r v) k w = k tt (store_world r (Z.lor (sfr w r) v) w).
Proof. reflexivity. Qed.

Lemma bind_store {B} r v (k : unit -> M B) w :
  bind (store r v) k w = k tt (store_world r v w).
Proof. reflexivity. Qed.

Lemma bind_sendData_inv {B} fuel d (k : Z -> M B) w res :
  bind (sendData fuel d) k w = Some res ->
  k (sfr (exchange d w) SPDR) (exchange d w) = Some res.
Proof.
  unfold bind at 1.
  destruct (sendData fuel d w) as [[r w1] |] eqn:E; [| discriminate].
  apply sendData_inv in E. destruct E as [-> ->]. trivial.
Qed.

Lemma bind_sendData_ready {B} fuel d (k : Z -> M B) w :
  ready fuel (S (xfers w)) = true ->
  bind (sendData fuel d) k w = k (sfr (exchange d w) SPDR) (exchange d w).
Proof.
  intros Hr. apply ready_spec in Hr. destruct Hr as [j [Hlt Hj]].
  unfold bind at 1. now rewrite (sendData_enough fuel d w j).
Qed.

Lemma bind_sendData_never {B} fuel d (k : Z -> M B) w :
  (forall j, spif_at (S (xfers w)) j = false) ->
  bind (sendData fuel d) k w = None.
Proof. intros Hn. unfold bind at 1. now rewrite sendData_never. Qed.

Lemma responsive_S fuel n cnt :
  responsive fuel n (S cnt) = ready fuel (S n) && responsive fuel (S n) cnt.
Proof. reflexivity. Qed.

End Steps.

(** ** What each function does when it returns, and when it returns *)

Section Operations.
Context {board : Board} {bench : Bench}.

Lemma bind_select {B} (k : unit -> M B) w :
  bind (and_assign PORTB (Z.lnot (bit CHIP_SELECT))) k w = k tt (select w).
Proof. reflexivity. Qed.

Lemma bind_release {B} (k : unit -> M B) w :
  bind (or_assign PORTB (bit CHIP_SELECT)) k w = k tt (release w).
Proof. reflexivity. Qed.

Lemma bind_delay {B} us (k : unit -> M B) w :
  bind (_delay_us us) k w = k tt (pause us w).
Proof. reflexivity. Qed.

Lemma xfers_store r v w : r <> SPDR -> xfers (store_world r v w) = xfers w.
Proof. destruct r; intros H; try reflexivity. congruence. Qed.

Lemma xfers_setup w : xfers (setup w) = xfers w.
Proof. unfold setup. cbv zeta. now rewrite !xfers_store by discriminate. Qed.

Ltac step_in H :=
  repeat (first
    [ rewrite bind_select in H | rewrite bind_release in H
    | rewrite bind_delay in H | rewrite bind_and_assign in H
    | rewrite bind_or_assign in H | rewrite bind_store in H
    | apply bind_sendData_inv in H ]; cbv beta in H).

Ltac returned H :=
  step_in H; unfold ret, load in H; inversion H; subst; clear H.

Ltac split_responsive H :=
  repeat (rewrite responsive_S in H; apply andb_true_iff in H;
          let Hr := fresh "Hr" in destruct H as [Hr H]).

Ltac count_xfers :=
  repeat first [ rewrite xfers_exchange | rewrite xfers_select
               | rewrite xfers_release | rewrite xfers_setup ].

Ltac step :=
  repeat (first
    [ rewrite bind_select | rewrite bind_release
    | rewrite bind_delay | rewrite bind_and_assign
    | rewrite bind_or_assign | rewrite bind_store
    | rewrite bind_sendData_ready by (count_xfers; assumption) ]; cbv beta).

Ltac stalls Hn :=
  repeat (first
    [ rewrite bind_select | rewrite bind_release
    | rewrite bind_delay | rewrite bind_and_assign
    | rewrite bind_or_assign | rewrite bind_store ]; cbv beta);
  apply bind_sendData_never; count_xfers; exact Hn.

(** writeToRegister *)
Lemma writeToRegister_inv fuel a d w u w' :
  writeToRegister fuel a d w = Some (u, w') -> w' = after_write a d w.
Proof. unfold writeToRegister. intros H. returned H. reflexivity. Qed.

Lemma writeToRegister_run fuel a d w :
  responsive fuel (xfers w) 3 = true ->
  writeToRegister fuel a d w = Some (tt, after_write a d w).
Proof. intros H. split_responsive H. unfold writeToRegister. step. reflexivity. Qed.

Lemma writeToRegister_never fuel a d w :
  (forall j, spif_at (S (xfers w)) j = false) ->
  writeToRegister fuel a d w = None.
Proof. intros Hn. unfold writeToRegister. stalls Hn. Qed.

(** readRegister *)
Lemma readRegister_inv fuel a w v w' :
  readRegister fuel a w = Some (v, w') ->
  w' = after_read a w /\
  v = sfr (exchange FILLER (exchange a (exchange SPI_READ (select w)))) SPDR.
Proof. unfold readRegister. intros H. returned H. split; reflexivity. Qed.

Lemma readRegister_run fuel a w :
  responsive fuel (xfers w) 3 = true ->
  readRegister fuel a w =
  Some (sfr (exchange FILLER (exchange a (exchange SPI_READ (select w)))) SPDR,
        after_read a w).
Proof. intros H. split_responsive H. unfold readRegister. step. reflexivity. Qed.

Lemma readRegister_never fuel a w :
  (forall j, spif_at (S (xfers w)) j = false) ->
  readRegister fuel a w = None.
Proof. intros Hn. unfold readRegister. stalls Hn. Qed.

(** bitModify *)
Lemma bitModify_inv fuel a m d w u w' :
  bitModify fuel a m d w = Some (u, w') -> w' = after_bitModify a m d w.
Proof. unfold bitModify. intros H. returned H. reflexivity. Qed.

Lemma bitModify_run fuel a m d w :
  responsive fuel (xfers w) 4 = true ->
  bitModify fuel a m d w = Some (tt, after_bitModify a m d w).
Proof. intros H. split_responsive H. unfold bitModify. step. reflexivity. Qed.

Lemma bitModify_never fuel a m d w :
  (forall j, spif_at (S (xfers w)) j = false) ->
  bitModify fuel a m d w = None.
Proof. intros Hn. unfold bitModify. stalls Hn. Qed.

(** readStatus *)
Lemma readStatus_inv fuel t w v w' :
  readStatus fuel t w = Some (v, w') ->
  w' = after_status t w /\
  v = sfr (exchange FILLER (exchange t (select w))) SPDR.
Proof. unfold readStatus. intros H. returned H. split; reflexivity. Qed.

Lemma readStatus_run fuel t w :
  responsive fuel (xfers w) 2 = true ->
  readStatus fuel t w =
  Some (sfr (exchange FILLER (exchange t (select w))) SPDR, after_status t w).
Proof. intros H. split_responsive H. unfold readStatus. step. reflexivity. Qed.

Lemma readStatus_never fuel t w :
  (forall j, spif_at (S (xfers w)) j = false) ->
  readStatus fuel t w = None.
Proof. intros Hn. unfold readStatus. stalls Hn. Qed.

(** resetController *)
Lemma resetController_inv fuel w u w' :
  resetController fuel w = Some (u, w') -> w' = after_reset w.
Proof. unfold resetController. intros H. returned H. reflexivity. Qed.

Lemma resetController_run fuel w :
  responsive fuel (xfers w) 1 = true ->
  resetController fuel w = Some (tt, after_reset w).
Proof. intros H. split_responsive H. unfold resetController. step. reflexivity. Qed.

Lemma resetController_never fuel w :
  (forall j, spif_at (S (xfers w)) j = false) ->
  resetController fuel w = None.
Proof. intros Hn. unfold resetController. stalls Hn. Qed.

Lemma bind_resetController_inv {B} fuel (k : unit -> M B) w res :
  bind (resetController fuel) k w = Some res -> k tt (after_reset w) = Some res.
Proof.
  unfold bind at 1.
  destruct (resetController fuel w) as [[[] w1] |] eqn:E; [| discriminate].
  apply resetController_inv in E. now subst w1.
Qed.

Lemma bind_resetController_ready {B} fuel (k : unit -> M B) w :
  responsive fuel (xfers w) 1 = true ->
  bind (resetController fuel) k w = k tt (after_reset w).
Proof. intros H. unfold bind at 1. now rewrite resetController_run. Qed.

Lemma xfers_after_reset w : xfers (after_reset w) = S (xfers w).
Proof. unfold after_reset. now count_xfers. Qed.

Lemma xfers_pause us w : xfers (pause us w) = xfers w.
Proof. reflexivity. Qed.

(** initController *)
Lemma returned_eq {A : Type} (a b : A) (w1 w2 : world) :
  Some (a, w1) = Some (b, w2) -> w2 = w1 /\ b = a.
Proof. intros H. now inversion H. Qed.

Lemma initController_inv fuel w v w' :
  initController fuel w = Some (v, w') ->
  w' = after_init w /\ v = sfr (after_init w) SPDR.
Proof.
  unfold initController. intros H. step_in H.
  apply bind_resetController_inv in H. cbv beta in H.
  step_in H. unfold load in H.
  unfold after_init, setup. cbv zeta.
  exact (returned_eq _ _ _ _ H).
Qed.

Lemma initController_run fuel w :
  responsive fuel (xfers w) 4 = true ->
  initController fuel w = Some (sfr (after_init w) SPDR, after_init w).
Proof.
  intros H. rewrite responsive_S in H. apply andb_true_iff in H.
  destruct H as [H0 H]. split_responsive H.
  assert (E : forall u, xfers (pause u (after_reset (setup w))) = S (xfers w)).
  { intros u. now rewrite xfers_pause, xfers_after_reset, xfers_setup. }
  unfold after_init, setup in *. cbv zeta in *.
  unfold initController.
  repeat (first [ rewrite bind_release | rewrite bind_and_assign
                | rewrite bind_or_assign | rewrite bind_store ]; cbv beta).
  rewrite bind_resetController_ready.
  - cbv beta. rewrite bind_delay. cbv beta. rewrite bind_select. cbv beta.
    rewrite bind_sendData_ready by (rewrite xfers_select, E; assumption).
    cbv beta.
    rewrite bind_sendData_ready
      by (rewrite xfers_exchange, xfers_select, E; assumption).
    cbv beta.
    rewrite bind_sendData_ready
      by (rewrite !xfers_exchange, xfers_select, E; assumption).
    reflexivity.
  - rewrite !xfers_store, xfers_release by discriminate.
    unfold responsive. cbn [seq forallb]. now rewrite H0.
Qed.

Lemma initController_never fuel w :
  (forall j, spif_at (S (xfers w)) j = false) ->
  initController fuel w = None.
Proof.
  intros Hn. unfold initController.
  repeat (first [ rewrite bind_release | rewrite bind_and_assign
                | rewrite bind_or_assign | rewrite bind_store ]; cbv beta).
  unfold bind at 1.
  rewrite resetController_never; [reflexivity |].
  now rewrite !xfers_store, xfers_release by discriminate.
Qed.

End Operations.

(** ** The chip's side of a transaction *)

Section Chip.
Context {board : Board} {bench : Bench}.

Lemma u8_byte x : byte x -> u8 x = x.
Proof. intros H. apply Z.mod_small. exact H. Qed.

Lemma chip_write c a d :
  ph c = Idle ->
  snd (chip_byte (snd (chip_byte (snd (chip_byte c SPI_WRITE)) a)) d)
  = Chip (upd Z.eq_dec (regs c) a d) Done.
Proof. destruct c as [rg p]. cbn [ph]. intros ->. reflexivity. Qed.

Lemma chip_read c a f :
  ph c = Idle ->
  chip_byte (snd (chip_byte (snd (chip_byte c SPI_READ)) a)) f
  = (regs c a, Chip (regs c) Done).
Proof. destruct c as [rg p]. cbn [ph]. intros ->. reflexivity. Qed.

Lemma chip_bitModify c a m d :
  ph c = Idle ->
  snd (chip_byte (snd (chip_byte (snd (chip_byte
         (snd (chip_byte c SPI_BIT_MODIFY)) a)) m)) d)
  = Chip (upd Z.eq_dec (regs c) a
            (Z.lor (Z.land (regs c a) (Z.lnot m)) (Z.land d m))) Done.
Proof. destruct c as [rg p]. cbn [ph]. intros ->. reflexivity. Qed.

(** A READ command sent to a chip that is between commands changes no
    register. *)
Lemma chip_read_regs c a f :
  match ph c with Idle | Done => true | _ => false end = true ->
  regs (snd (chip_byte (snd (chip_byte (snd (chip_byte c SPI_READ)) a)) f))
  = regs c.
Proof. destruct c as [rg p]. cbn [ph]. destruct p; try discriminate; reflexivity. Qed.

Lemma dev_after_write a d w :
  chip_idle w ->
  dev (after_write a d w) = Chip (upd Z.eq_dec (regs (dev w)) (u8 a) (u8 d)) Idle.
Proof.
  intros Hi. unfold after_write.
  rewrite dev_release, !dev_exchange, !cs_asserted_exchange, cs_asserted_select,
    dev_select.
  change (u8 SPI_WRITE) with SPI_WRITE. now rewrite chip_write.
Qed.

Lemma dev_after_bitModify a m d w :
  chip_idle w ->
  dev (after_bitModify a m d w) =
  Chip (upd Z.eq_dec (regs (dev w)) (u8 a)
          (Z.lor (Z.land (regs (dev w) (u8 a)) (Z.lnot (u8 m))) (Z.land (u8 d) (u8 m))))
       Idle.
Proof.
  intros Hi. unfold after_bitModify.
  rewrite dev_release, !dev_exchange, !cs_asserted_exchange, cs_asserted_select,
    dev_select.
  change (u8 SPI_BIT_MODIFY) with SPI_BIT_MODIFY. now rewrite chip_bitModify.
Qed.

Lemma read_value a w :
  chip_idle w ->
  sfr (exchange FILLER (exchange a (exchange SPI_READ (select w)))) SPDR
  = regs (dev w) (u8 a).
Proof.
  intros Hi.
  rewrite rx_exchange, !dev_exchange, !cs_asserted_exchange, cs_asserted_select,
    dev_select.
  change (u8 SPI_READ) with SPI_READ. now rewrite chip_read.
Qed.

Lemma regs_after_read a w :
  chip_settled w = true ->
  regs (dev (after_read a w)) = regs (dev w).
Proof.
  intros Hs. unfold after_read.
  rewrite dev_release, !dev_exchange, !cs_asserted_exchange, cs_asserted_select,
    dev_select.
  cbn [regs]. change (u8 SPI_READ) with SPI_READ. now apply chip_read_regs.
Qed.

Lemma dev_exchange_selected d w :
  cs_asserted w = true -> dev (exchange d w) = snd (chip_byte (dev w) (u8 d)).
Proof. intros H. now rewrite dev_exchange, H. Qed.

Lemma dev_pause us w : dev (pause us w) = dev w.
Proof. reflexivity. Qed.

(** [initController] leaves the chip at the end of its WRITE command. *)
Lemma dev_after_init w :
  dev (after_init w) =
  Chip (upd Z.eq_dec (regs (dev (after_reset (setup w)))) (u8 CNF3)
          (u8 (bit PHSEG21)))
       Done.
Proof.
  unfold after_init.
  rewrite !dev_exchange_selected
    by (rewrite ?cs_asserted_exchange; apply cs_asserted_select).
  rewrite dev_select, dev_pause.
  change (u8 SPI_WRITE) with SPI_WRITE.
  apply chip_write. unfold after_reset. now rewrite dev_release.
Qed.

Lemma cs_asserted_bit w :
  cs_asserted w = true -> Z.testbit (sfr w PORTB) CHIP_SELECT = false.
Proof. unfold cs_asserted. intros H. now apply negb_true_iff in H. Qed.

Lemma cs_asserted_after_init w : cs_asserted (after_init w) = true.
Proof.
  unfold after_init. now rewrite !cs_asserted_exchange, cs_asserted_select.
Qed.

Lemma not_idle_after_init w : ~ chip_idle (after_init w).
Proof. unfold chip_idle. rewrite dev_after_init. discriminate. Qed.

Lemma last_after_init w :
  last (bus (after_init w)) (Delay 0)
  = Xfer true (u8 (bit PHSEG21)) (sfr (after_init w) SPDR).
Proof.
  unfold after_init. rewrite bus_exchange, last_last.
  rewrite !cs_asserted_exchange, cs_asserted_select. reflexivity.
Qed.

Lemma chip_idle_release w : chip_idle (release w).
Proof. unfold chip_idle. now rewrite dev_release. Qed.

Lemma responsive_add fuel n a b :
  responsive fuel n (a + b) = responsive fuel n a && responsive fuel (n + a) b.
Proof. unfold responsive. now rewrite seq_app, forallb_app. Qed.

Lemma xfers_after_write a d w : xfers (after_write a d w) = (xfers w + 3)%nat.
Proof.
  unfold after_write.
  rewrite xfers_release, !xfers_exchange, xfers_select. lia.
Qed.

Lemma xfers_after_bitModify a m d w :
  xfers (after_bitModify a m d w) = (xfers w + 4)%nat.
Proof.
  unfold after_bitModify.
  rewrite xfers_release, !xfers_exchange, xfers_select. lia.
Qed.

End Chip.

(** ** Properties of the driver *)

Section Claims.
Context {board : Board} {bench : Bench}.

(** Claim C7.  [messageReceived] returns 1 exactly when bit [INTERRUPT_LOW]
    of PIND reads 0 and 0 when it reads 1: the result is the inverse of that
    one bit, whatever the rest of the machine holds, and the call changes
    nothing. *)
Theorem messageReceived_inverts_interrupt_line (w : world) :
  messageReceived w =
  Some (Z.b2z (negb (Z.testbit (sfr w PIND) INTERRUPT_LOW)), w).
Proof.
  unfold messageReceived, bind, load, ret, c_not.
  rewrite land_bit_eq0 by (unfold INTERRUPT_LOW; lia).
  now destruct (Z.testbit (sfr w PIND) INTERRUPT_LOW).
Qed.

(** Claim C3.  On a chip that waits for an opcode and a bus that answers,
    [writeToRegister R V] followed by [readRegister R] returns [V], for every
    address [R] and every 8-bit value [V]. *)
Theorem write_then_read_roundtrip (fuel : nat) (w : world) (R V : Z) :
  chip_idle w -> byte R -> byte V ->
  responsive fuel (xfers w) 6 = true ->
  exists w1 w2,
    writeToRegister fuel R V w = Some (tt, w1) /\
    readRegister fuel R w1 = Some (V, w2).
Proof.
  intros Hi HR HV Hr.
  change 6%nat with (3 + 3)%nat in Hr. rewrite responsive_add in Hr.
  apply andb_true_iff in Hr. destruct Hr as [Hr1 Hr2].
  exists (after_write R V w), (after_read R (after_write R V w)).
  split; [now apply writeToRegister_run |].
  rewrite readRegister_run by (now rewrite xfers_after_write).
  rewrite read_value by (unfold after_write; apply chip_idle_release).
  rewrite dev_after_write by assumption. cbn [regs].
  now rewrite upd_same, (u8_byte V).
Qed.

(** Claim C2.  On a chip that waits for an opcode and a bus that answers,
    [bitModify R M V] followed by [readRegister R] returns
    [(old & ~M) | (V & M)], where [old] is the register's value before the
    call: a bit where [M] is 1 is the bit of [V], a bit where [M] is 0 is the
    old bit. *)
Theorem bitModify_then_read (fuel : nat) (w : world) (R Mk V : Z) :
  chip_idle w -> byte R -> byte Mk -> byte V ->
  responsive fuel (xfers w) 7 = true ->
  exists w1 w2 v,
    bitModify fuel R Mk V w = Some (tt, w1) /\
    readRegister fuel R w1 = Some (v, w2) /\
    v = Z.lor (Z.land (regs (dev w) R) (Z.lnot Mk)) (Z.land V Mk) /\
    forall i, 0 <= i ->
      Z.testbit v i =
      if Z.testbit Mk i then Z.testbit V i else Z.testbit (regs (dev w) R) i.
Proof.
  intros Hi HR HM HV Hr.
  change 7%nat with (4 + 3)%nat in Hr. rewrite responsive_add in Hr.
  apply andb_true_iff in Hr. destruct Hr as [Hr1 Hr2].
  exists (after_bitModify R Mk V w), (after_read R (after_bitModify R Mk V w)).
  eexists. split; [now apply bitModify_run |].
  split.
  { rewrite readRegister_run by (now rewrite xfers_after_bitModify).
    rewrite read_value by (unfold after_bitModify; apply chip_idle_release).
    reflexivity. }
  rewrite dev_after_bitModify by assumption. cbn [regs].
  rewrite upd_same, (u8_byte R), (u8_byte Mk), (u8_byte V) by assumption.
  split; [reflexivity |].
  intros i Hpos.
  rewrite Z.lor_spec, !Z.land_spec, Z.lnot_spec by assumption.
  destruct (Z.testbit Mk i); cbn [negb].
  - now rewrite andb_false_r, andb_true_r.
  - now rewrite andb_false_r, andb_true_r, orb_false_r.
Qed.

(** Claim C6.  [readRegister] changes no register of the chip: on a chip that
    is between commands, every register holds after the call what it held
    before, the one read included. *)
Theorem readRegister_preserves_registers
  (fuel : nat) (a : Z) (w : world) (v : Z) (w' : world) :
  chip_settled w = true ->
  readRegister fuel a w = Some (v, w') ->
  forall R, regs (dev w') R = regs (dev w) R.
Proof.
  intros Hs H R. apply readRegister_inv in H. destruct H as [-> _].
  now rewrite regs_after_read.
Qed.

Ltac trace :=
  rewrite ?bus_release, ?bus_exchange, ?bus_select,
    ?cs_asserted_exchange, ?cs_asserted_select;
  rewrite <- ?app_assoc; cbn [app].

(** Claim C4.  On a bus that answers, [readRegister a] makes exactly three
    byte exchanges between driving chip-select low and driving it high: it
    sends the READ opcode, the address and the filler byte 0xFF, in that
    order, and returns the byte received in the third exchange; on a chip
    that waits for an opcode, that byte is the value of register [a]. *)
Theorem readRegister_exchanges (fuel : nat) (a : Z) (w : world) :
  byte a ->
  responsive fuel (xfers w) 3 = true ->
  exists v w' p q rx1 rx2,
    readRegister fuel a w = Some (v, w') /\
    since w w' [Wr PORTB p; Xfer true SPI_READ rx1; Xfer true a rx2;
                Xfer true FILLER v; Wr PORTB q] /\
    Z.testbit p CHIP_SELECT = false /\
    Z.testbit q CHIP_SELECT = true /\
    (chip_idle w -> v = regs (dev w) a).
Proof.
  intros Ha Hr. do 6 eexists.
  split; [now apply readRegister_run |].
  split.
  { unfold since, after_read. trace. rewrite (u8_byte a) by assumption.
    reflexivity. }
  split; [rewrite sfr_select_PORTB; apply select_bit |].
  split; [rewrite sfr_release_PORTB; apply release_bit |].
  intros Hi. now rewrite read_value, (u8_byte a).
Qed.

(** Claim C5.  On a bus that answers, [writeToRegister a d] makes exactly
    three byte exchanges between driving chip-select low and driving it
    high: it sends the WRITE opcode, the address and the value, in that
    order, and returns nothing; on a chip that waits for an opcode, register
    [a] then holds [d]. *)
Theorem writeToRegister_exchanges (fuel : nat) (a d : Z) (w : world) :
  byte a -> byte d ->
  responsive fuel (xfers w) 3 = true ->
  exists w' p q rx1 rx2 rx3,
    writeToRegister fuel a d w = Some (tt, w') /\
    since w w' [Wr PORTB p; Xfer true SPI_WRITE rx1; Xfer true a rx2;
                Xfer true d rx3; Wr PORTB q] /\
    Z.testbit p CHIP_SELECT = false /\
    Z.testbit q CHIP_SELECT = true /\
    (chip_idle w -> regs (dev w') a = d).
Proof.
  intros Ha Hd Hr. do 6 eexists.
  split; [now apply writeToRegister_run |].
  split.
  { unfold since, after_write. trace.
    rewrite (u8_byte a), (u8_byte d) by assumption. reflexivity. }
  split; [rewrite sfr_select_PORTB; apply select_bit |].
  split; [rewrite sfr_release_PORTB; apply release_bit |].
  intros Hi. rewrite dev_after_write by assumption. cbn [regs].
  now rewrite (u8_byte a), (u8_byte d), upd_same.
Qed.


(** Claim C1 (the code departs from it).  [initController] returns with
    chip-select still asserted: bit [CHIP_SELECT] of PORTB is 0 when it
    returns, the last thing it did to the outside is a byte exchange, and the
    chip is left inside the WRITE command. *)
Theorem initController_returns_selected
  (fuel : nat) (w : world) (v : Z) (w' : world) :
  initController fuel w = Some (v, w') ->
  Z.testbit (sfr w' PORTB) CHIP_SELECT = false /\
  cs_asserted w' = true /\
  (exists rx, last (bus w') (Delay 0) = Xfer true (u8 (bit PHSEG21)) rx) /\
  ~ chip_idle w'.
Proof.
  intros H. apply initController_inv in H. destruct H as [-> _].
  split; [apply cs_asserted_bit, cs_asserted_after_init |].
  split; [apply cs_asserted_after_init |].
  split; [eexists; apply last_after_init | apply not_idle_after_init].
Qed.

(** *** The trace of initController *)

Lemma bus_store r v w :
  r <> SPDR -> bus (store_world r v w) = bus w ++ [Wr r (u8 v)].
Proof. destruct r; intros H; try reflexivity. congruence. Qed.

Lemma sfr_store_same r v w :
  r <> SPDR -> sfr (store_world r v w) r = u8 v.
Proof.
  destruct r; intros H; try (unfold store_world; cbn [sfr]; apply upd_same).
  congruence.
Qed.

Lemma bus_pause us w : bus (pause us w) = bus w ++ [Delay us].
Proof. reflexivity. Qed.

Lemma bus_setup w : bus (setup w) = bus w ++ setup_trace w.
Proof.
  unfold setup, setup_trace, release. cbv zeta.
  repeat (rewrite bus_store by discriminate).
  repeat first [ rewrite sfr_store_same by discriminate
               | rewrite sfr_store_other by discriminate ].
  rewrite <- !app_assoc. reflexivity.
Qed.

Lemma bus_after_reset w :
  bus (after_reset w) =
  bus w ++ [Wr PORTB (sfr (select w) PORTB);
            Xfer true SPI_RESET (sfr (exchange SPI_RESET (select w)) SPDR);
            Wr PORTB (sfr (after_reset w) PORTB)].
Proof. unfold after_reset. trace. reflexivity. Qed.

Lemma bus_after_init w :
  bus (after_init w) =
  bus w ++ setup_trace w ++
  [ Wr PORTB (sfr (select (setup w)) PORTB);
    Xfer true SPI_RESET (sfr (exchange SPI_RESET (select (setup w))) SPDR);
    Wr PORTB (sfr (after_reset (setup w)) PORTB);
    Delay 10;
    Wr PORTB (sfr (select (pause 10 (after_reset (setup w)))) PORTB);
    Xfer true SPI_WRITE
      (sfr (exchange SPI_WRITE (select (pause 10 (after_reset (setup w))))) SPDR);
    Xfer true (u8 CNF3)
      (sfr (exchange CNF3 (exchange SPI_WRITE
              (select (pause 10 (after_reset (setup w)))))) SPDR);
    Xfer true (u8 (bit PHSEG21)) (sfr (after_init w) SPDR) ].
Proof.
  unfold after_init. trace.
  rewrite bus_pause, bus_after_reset, bus_setup.
  rewrite <- !app_assoc. reflexivity.
Qed.

(** A trace whose last event is a byte exchange is not a framed transaction. *)
Lemma framed_needs_release e mid sel tx rx :
  framed (e :: mid ++ [Xfer sel tx rx]) = false.
Proof.
  cbn [framed]. rewrite rev_app_distr. cbn [rev app drives_cs].
  apply andb_false_r.
Qed.

(** Claim C8 (the code departs from it).  On a bus that answers,
    [initController] does, in this order: the stores that set up the pins and
    the SPI unit ([setup_trace]), the RESET transaction, the 10 microsecond
    delay, and then chip-select low and the three bytes WRITE, CNF3,
    [1 << PHSEG21].  There it returns: no store drives chip-select high
    again, so the last four events are not a framed transaction and
    chip-select is still asserted. *)
Theorem initController_steps (fuel : nat) (w : world) :
  responsive fuel (xfers w) 4 = true ->
  exists v w' p3 p4 p5 rx0 rx1 rx2,
    initController fuel w = Some (v, w') /\
    since w w'
      (setup_trace w ++
       [ Wr PORTB p3; Xfer true SPI_RESET rx0; Wr PORTB p4;
         Delay 10;
         Wr PORTB p5; Xfer true SPI_WRITE rx1; Xfer true (u8 CNF3) rx2;
         Xfer true (u8 (bit PHSEG21)) v ]) /\
    Z.testbit p3 CHIP_SELECT = false /\
    Z.testbit p4 CHIP_SELECT = true /\
    Z.testbit p5 CHIP_SELECT = false /\
    framed [ Wr PORTB p5; Xfer true SPI_WRITE rx1; Xfer true (u8 CNF3) rx2;
             Xfer true (u8 (bit PHSEG21)) v ] = false /\
    cs_asserted w' = true.
Proof.
  intros Hr. do 8 eexists.
  split; [now apply initController_run |].
  split; [unfold since; apply bus_after_init |].
  split; [rewrite sfr_select_PORTB; apply select_bit |].
  split; [unfold after_reset; rewrite sfr_release_PORTB; apply release_bit |].
  split; [rewrite sfr_select_PORTB; apply select_bit |].
  split; [| apply cs_asserted_after_init].
  apply (framed_needs_release _ [Xfer true _ _; Xfer true _ _]).
Qed.

(** Claim C9.  [sendData] returns, with the byte shifted in, as soon as the
    loop has enough polls to see the transfer-complete flag set; when the
    flag is never set it does not return however many polls it is given,
    and neither does any function that calls it. *)
Theorem sendData_returns_iff_SPIF (data : Z) (w : world) :
  (forall k, spif_at (S (xfers w)) k = true ->
     exists sel rx,
       since w (exchange data w) [Xfer sel (u8 data) rx] /\
       forall fuel, (k < fuel)%nat ->
         sendData fuel data w = Some (rx, exchange data w)) /\
  ((forall k, spif_at (S (xfers w)) k = false) ->
     forall fuel,
       sendData fuel data w = None /\
       (forall a d, writeToRegister fuel a d w = None) /\
       (forall a, readRegister fuel a w = None) /\
       (forall a m d, bitModify fuel a m d w = None) /\
       (forall t, readStatus fuel t w = None) /\
       resetController fuel w = None /\
       initController fuel w = None).
Proof.
  split.
  - intros k Hk. do 2 eexists. split; [unfold since; apply bus_exchange |].
    intros fuel Hlt. now apply (sendData_enough fuel data w k).
  - intros Hn fuel.
    split; [now apply sendData_never |].
    split; [intros; now apply writeToRegister_never |].
    split; [intros; now apply readRegister_never |].
    split; [intros; now apply bitModify_never |].
    split; [intros; now apply readStatus_never |].
    split; [now apply resetController_never | now apply initController_never].
Qed.

(** *** What a transaction leaves alone *)

Lemma frame_release (w X : world) :
  (forall r, r <> SPDR -> sfr X r = sfr (select w) r) ->
  (forall r, r <> PORTB -> r <> SPDR -> sfr (release X) r = sfr w r) /\
  (forall i, 0 <= i < 8 -> i <> CHIP_SELECT ->
     Z.testbit (sfr (release X) PORTB) i = Z.testbit (sfr w PORTB) i).
Proof.
  intros HX. split.
  - intros r Hp Hd.
    now rewrite sfr_release_other, HX, sfr_select_other.
  - intros i Hi Hne.
    rewrite sfr_release_PORTB, HX, sfr_select_PORTB by discriminate.
    now apply select_release_other_bits.
Qed.

(** Claim C10.  A call of [writeToRegister], [readRegister], [bitModify] or
    [readStatus] that returns leaves DDRB, DDRD, PORTD and SPCR as they were,
    and leaves every bit of PORTB other than bit [CHIP_SELECT] as it was. *)
Theorem register_access_frame (w w' : world) :
  access_returns w w' ->
  sfr w' DDRB = sfr w DDRB /\
  sfr w' DDRD = sfr w DDRD /\
  sfr w' PORTD = sfr w PORTD /\
  sfr w' SPCR = sfr w SPCR /\
  forall i, 0 <= i < 8 -> i <> CHIP_SELECT ->
    Z.testbit (sfr w' PORTB) i = Z.testbit (sfr w PORTB) i.
Proof.
  intros H.
  assert (F : exists X, w' = release X /\
                        forall r, r <> SPDR -> sfr X r = sfr (select w) r).
  { destruct H as [f a d w w' H | f a v w w' H | f a m d w w' H | f t v w w' H].
    - apply writeToRegister_inv in H. subst w'. eexists.
      split; [reflexivity |]. intros r Hr.
      now rewrite !sfr_exchange_other.
    - apply readRegister_inv in H. destruct H as [-> _]. eexists.
      split; [reflexivity |]. intros r Hr.
      now rewrite !sfr_exchange_other.
    - apply bitModify_inv in H. subst w'. eexists.
      split; [reflexivity |]. intros r Hr.
      now rewrite !sfr_exchange_other.
    - apply readStatus_inv in H. destruct H as [-> _]. eexists.
      split; [reflexivity |]. intros r Hr.
      now rewrite !sfr_exchange_other. }
  destruct F as [X [-> HX]].
  destruct (frame_release w X HX) as [Hregs Hbits].
  repeat split; try (apply Hregs; discriminate). exact Hbits.
Qed.

End Claims.

(** ** The theorems at work on a concrete board

    Board [uno], bench [bench_ok] (every transfer completes at the third
    poll) or [bench_stalled] (no transfer ever completes), world [w0], five
    polls of fuel. *)

(** C1: after [initController] bit 2 of PORTB is 0. *)
Lemma initController_returns_selected_witness :
  Z.testbit (sfr (@after_init uno bench_ok w0) PORTB) CHIP_SELECT = false /\
  cs_asserted (@after_init uno bench_ok w0) = true.
Proof.
  assert (H : @initController uno bench_ok 5 w0
              = Some (sfr (@after_init uno bench_ok w0) SPDR,
                      @after_init uno bench_ok w0)).
  { vm_compute. reflexivity. }
  destruct (@initController_returns_selected uno bench_ok 5 w0 _ _ H)
    as [Hbit [Hcs _]].
  split; [exact Hbit | exact Hcs].
Defined.

(** C2: register 15 holds 0xFF; mask 0x0F, value 0xA5 give 0xF5. *)
Lemma bitModify_then_read_witness :
  exists w1 w2,
    @bitModify uno bench_ok 5 15 15 165 w0 = Some (tt, w1) /\
    @readRegister uno bench_ok 5 15 w1 = Some (245, w2).
Proof.
  destruct (@bitModify_then_read uno bench_ok 5 w0 15 15 165)
    as [w1 [w2 [v [H1 [H2 [Hv _]]]]]].
  - reflexivity.
  - unfold byte; lia.
  - unfold byte; lia.
  - unfold byte; lia.
  - reflexivity.
  - exists w1, w2. split; [exact H1 |]. rewrite H2, Hv. reflexivity.
Defined.

(** C3: write 1 to register 40, read 1 back. *)
Lemma write_then_read_roundtrip_witness :
  exists w1 w2,
    @writeToRegister uno bench_ok 5 40 1 w0 = Some (tt, w1) /\
    @readRegister uno bench_ok 5 40 w1 = Some (1, w2).
Proof.
  apply (@write_then_read_roundtrip uno bench_ok 5 w0 40 1).
  - reflexivity.
  - unfold byte; lia.
  - unfold byte; lia.
  - reflexivity.
Defined.

(** C4: reading register 40 sends 3, 40, 255 and returns 0xFF. *)
Lemma readRegister_exchanges_witness :
  exists w' p q rx1 rx2,
    @readRegister uno bench_ok 5 40 w0 = Some (255, w') /\
    since w0 w' [Wr PORTB p; Xfer true 3 rx1; Xfer true 40 rx2;
                 Xfer true 255 255; Wr PORTB q].
Proof.
  destruct (@readRegister_exchanges uno bench_ok 5 40 w0)
    as [v [w' [p [q [rx1 [rx2 [H1 [H2 [_ [_ Hv]]]]]]]]]].
  - unfold byte; lia.
  - reflexivity.
  - assert (E : v = 255) by (apply Hv; reflexivity).
    subst v. exists w', p, q, rx1, rx2. split; [exact H1 | exact H2].
Defined.

(** C5: writing 1 to register 40 sends 2, 40, 1 and the register holds 1. *)
Lemma writeToRegister_exchanges_witness :
  exists w' p q rx1 rx2 rx3,
    @writeToRegister uno bench_ok 5 40 1 w0 = Some (tt, w') /\
    since w0 w' [Wr PORTB p; Xfer true 2 rx1; Xfer true 40 rx2;
                 Xfer true 1 rx3; Wr PORTB q] /\
    regs (dev w') 40 = 1.
Proof.
  destruct (@writeToRegister_exchanges uno bench_ok 5 40 1 w0)
    as [w' [p [q [rx1 [rx2 [rx3 [H1 [H2 [_ [_ Hv]]]]]]]]]].
  - unfold byte; lia.
  - unfold byte; lia.
  - reflexivity.
  - exists w', p, q, rx1, rx2, rx3.
    split; [exact H1 | split; [exact H2 | apply Hv; reflexivity]].
Defined.

(** C6: reading register 40 leaves register 40 at 0xFF. *)
Lemma readRegister_preserves_registers_witness :
  regs (dev (after_read (bench:=bench_ok) 40 w0)) 40 = 255.
Proof.
  assert (H : @readRegister uno bench_ok 5 40 w0
              = Some (sfr (exchange (bench:=bench_ok) FILLER
                             (exchange (bench:=bench_ok) 40
                                (exchange (bench:=bench_ok) SPI_READ (select (bench:=bench_ok) w0)))) SPDR,
                      after_read (bench:=bench_ok) 40 w0)).
  { vm_compute. reflexivity. }
  rewrite (@readRegister_preserves_registers uno bench_ok 5 40 w0 _ _
             eq_refl H 40).
  reflexivity.
Defined.

(** C8: the trace of [initController] from [w0]. *)
Lemma initController_steps_witness :
  exists v w',
    @initController uno bench_ok 5 w0 = Some (v, w') /\
    cs_asserted w' = true.
Proof.
  destruct (@initController_steps uno bench_ok 5 w0 eq_refl)
    as [v [w' [p3 [p4 [p5 [rx0 [rx1 [rx2 [H1 [_ [_ [_ [_ [_ H2]]]]]]]]]]]]]].
  exists v, w'. split; [exact H1 | exact H2].
Defined.

(** C9: [sendData] returns on [bench_ok] with three polls, and never on
    [bench_stalled]. *)
Lemma sendData_returns_iff_SPIF_witness :
  (exists rx, @sendData uno bench_ok 3 7 w0
              = Some (rx, exchange (bench:=bench_ok) 7 w0)) /\
  @sendData uno bench_stalled 1000 7 w0 = None /\
  @initController uno bench_stalled 1000 w0 = None.
Proof.
  split.
  - destruct (proj1 (@sendData_returns_iff_SPIF uno bench_ok 7 w0) 2%nat eq_refl)
      as [sel [rx [_ H]]].
    exists rx. apply H. lia.
  - pose proof (proj2 (@sendData_returns_iff_SPIF uno bench_stalled 7 w0)
                  (fun k => eq_refl) 1000%nat) as H.
    split; [apply H | apply H].
Defined.

(** C10: a read of register 40 leaves DDRB as it was. *)
Lemma register_access_frame_witness :
  sfr (after_read (bench:=bench_ok) 40 w0) DDRB = sfr w0 DDRB /\
  Z.testbit (sfr (after_read (bench:=bench_ok) 40 w0) PORTB) 5
  = Z.testbit (sfr w0 PORTB) 5.
Proof.
  assert (H : @access_returns uno bench_ok w0 (after_read (bench:=bench_ok) 40 w0)).
  { apply (@read_returns uno bench_ok 5 40 255). vm_compute. reflexivity. }
  destruct (@register_access_frame uno bench_ok _ _ H) as [H1 [_ [_ [_ H5]]]].
  split; [exact H1 | apply H5; unfold CHIP_SELECT; lia].
Defined.

(** What the missing release costs: right after [initController] the chip is
    still inside its WRITE command, so a write of 1 to CNF3 followed by a read
    of CNF3 returns the 2 that [initController] stored, not 1. *)
Example roundtrip_after_init_reads_old_value :
  let w1 := after_init (board:=uno) (bench:=bench_ok) w0 in
  let w2 := after_write (bench:=bench_ok) 40 1 w1 in
  let w3 := after_read (bench:=bench_ok) 40 w2 in
  (exists v, @initController uno bench_ok 5 w0 = Some (v, w1)) /\
  @writeToRegister uno bench_ok 5 40 1 w1 = Some (tt, w2) /\
  @readRegister uno bench_ok 5 40 w2 = Some (2, w3).
Proof.
  cbv zeta. split; [exists 255 | split]; vm_compute; reflexivity.
Qed.

(** ** Further properties of the driver *)

Section Further.
Context {board : Board} {bench : Bench}.

(** *** A call returns only if its exchanges complete *)

Lemma wait_SPIF_seen fuel : forall k w r,
  wait_SPIF fuel k w = Some r ->
  exists j, (j < fuel)%nat /\ spif_at (xfers w) (k + j) = true.
Proof.
  induction fuel as [| fuel IH]; intros k w r H; [discriminate |].
  cbn in H. unfold bind, poll_SPSR in H.
  rewrite (spif_exit _ (xfers w) k eq_refl) in H.
  destruct (spif_at (xfers w) k) eqn:E.
  - exists 0%nat. split; [lia | now rewrite Nat.add_0_r].
  - apply IH in H. destruct H as [j [Hlt Hj]].
    exists (S j). split; [lia |].
    now replace (k + S j)%nat with (S k + j)%nat by lia.
Qed.

Lemma sendData_seen fuel d w r :
  sendData fuel d w = Some r -> ready fuel (S (xfers w)) = true.
Proof.
  unfold sendData, bind, store, load. fold (exchange d w).
  destruct (wait_SPIF fuel 0 (exchange d w)) as [[u w1] |] eqn:E; [| discriminate].
  intros _. apply wait_SPIF_seen in E. destruct E as [j [Hlt Hj]].
  rewrite xfers_exchange in Hj. apply ready_spec. now exists j.
Qed.

Lemma bind_sendData_seen {B} fuel d (k : Z -> M B) w res :
  bind (sendData fuel d) k w = Some res ->
  ready fuel (S (xfers w)) = true /\
  k (sfr (exchange d w) SPDR) (exchange d w) = Some res.
Proof.
  intros H. split; [| now apply bind_sendData_inv in H].
  unfold bind in H.
  destruct (sendData fuel d w) as [r |] eqn:E; [| discriminate].
  now apply sendData_seen in E.
Qed.

Ltac see H R :=
  apply bind_sendData_seen in H; destruct H as [R H]; cbv beta in H;
  rewrite ?xfers_exchange, ?xfers_select in R.

Ltac all_ready :=
  unfold responsive; cbn [seq forallb];
  repeat match goal with R : ready _ _ = true |- _ => rewrite R; clear R end;
  reflexivity.

Lemma writeToRegister_seen fuel a d w r :
  writeToRegister fuel a d w = Some r -> responsive fuel (xfers w) 3 = true.
Proof.
  unfold writeToRegister. intros H. rewrite bind_select in H. cbv beta in H.
  see H R1. see H R2. see H R3. all_ready.
Qed.

Lemma readRegister_seen fuel a w r :
  readRegister fuel a w = Some r -> responsive fuel (xfers w) 3 = true.
Proof.
  unfold readRegister. intros H. rewrite bind_select in H. cbv beta in H.
  see H R1. see H R2. see H R3. all_ready.
Qed.

Lemma bitModify_seen fuel a m d w r :
  bitModify fuel a m d w = Some r -> responsive fuel (xfers w) 4 = true.
Proof.
  unfold bitModify. intros H. rewrite bind_select in H. cbv beta in H.
  see H R1. see H R2. see H R3. see H R4. all_ready.
Qed.

Lemma readStatus_seen fuel t w r :
  readStatus fuel t w = Some r -> responsive fuel (xfers w) 2 = true.
Proof.
  unfold readStatus. intros H. rewrite bind_select in H. cbv beta in H.
  see H R1. see H R2. all_ready.
Qed.

Lemma resetController_seen fuel w r :
  resetController fuel w = Some r -> responsive fuel (xfers w) 1 = true.
Proof.
  unfold resetController. intros H. rewrite bind_select in H. cbv beta in H.
  see H R1. all_ready.
Qed.

Lemma initController_seen fuel w r :
  initController fuel w = Some r -> responsive fuel (xfers w) 4 = true.
Proof.
  unfold initController. intros H.
  repeat (first [ rewrite bind_release in H | rewrite bind_and_assign in H
                | rewrite bind_or_assign in H | rewrite bind_store in H ];
          cbv beta in H).
  unfold bind at 1 in H.
  match type of H with
  | match resetController fuel ?W with _ => _ end = _ =>
      destruct (resetController fuel W) as [[[] w1] |] eqn:E; [| discriminate];
      pose proof (resetController_seen _ _ _ E) as R0;
      apply resetController_inv in E; subst w1;
      rewrite !xfers_store, xfers_release in R0 by discriminate;
      set (W0 := W) in *;
      assert (EW : xfers W0 = xfers w)
        by (subst W0; now rewrite !xfers_store, xfers_release by discriminate)
  end.
  rewrite bind_delay in H. cbv beta in H.
  rewrite bind_select in H. cbv beta in H.
  see H R1. see H R2. see H R3.
  rewrite xfers_pause, xfers_after_reset, EW in R1, R2, R3.
  unfold responsive in R0. cbn [seq forallb] in R0. rewrite andb_true_r in R0.
  clear H EW. all_ready.
Qed.

(** Each function of the driver returns exactly when every byte exchange it
    makes completes within the polls it is given: three exchanges for
    [writeToRegister] and [readRegister], four for [bitModify] and
    [initController], two for [readStatus], one for [resetController]. *)
Theorem returns_iff_exchanges_complete (fuel : nat) (w : world) :
  (forall a d, (exists r, writeToRegister fuel a d w = Some r)
               <-> responsive fuel (xfers w) 3 = true) /\
  (forall a, (exists r, readRegister fuel a w = Some r)
             <-> responsive fuel (xfers w) 3 = true) /\
  (forall a m d, (exists r, bitModify fuel a m d w = Some r)
                 <-> responsive fuel (xfers w) 4 = true) /\
  (forall t, (exists r, readStatus fuel t w = Some r)
             <-> responsive fuel (xfers w) 2 = true) /\
  ((exists r, resetController fuel w = Some r)
   <-> responsive fuel (xfers w) 1 = true) /\
  ((exists r, initController fuel w = Some r)
   <-> responsive fuel (xfers w) 4 = true).
Proof.
  repeat split.
  - intros [r H]. now apply writeToRegister_seen in H.
  - intros H. eexists. now apply writeToRegister_run.
  - intros [r H]. now apply readRegister_seen in H.
  - intros H. eexists. now apply readRegister_run.
  - intros [r H]. now apply bitModify_seen in H.
  - intros H. eexists. now apply bitModify_run.
  - intros [r H]. now apply readStatus_seen in H.
  - intros H. eexists. now apply readStatus_run.
  - intros [r H]. now apply resetController_seen in H.
  - intros H. eexists. now apply resetController_run.
  - intros [r H]. now apply initController_seen in H.
  - intros H. eexists. now apply initController_run.
Qed.

(** *** The transactions the claims leave out *)

Ltac frame_trace :=
  rewrite ?bus_release, ?bus_exchange, ?bus_select,
    ?cs_asserted_exchange, ?cs_asserted_select;
  rewrite <- ?app_assoc; cbn [app].

(** On a bus that answers, [readStatus t] makes exactly two byte exchanges
    between driving chip-select low and driving it high: it sends the byte
    [t] it was given, whatever that byte is, then the filler 0xFF, and
    returns the byte received in the second exchange. *)
Theorem readStatus_exchanges (fuel : nat) (t : Z) (w : world) :
  byte t ->
  responsive fuel (xfers w) 2 = true ->
  exists v w' p q rx1,
    readStatus fuel t w = Some (v, w') /\
    since w w' [Wr PORTB p; Xfer true t rx1; Xfer true FILLER v; Wr PORTB q] /\
    Z.testbit p CHIP_SELECT = false /\
    Z.testbit q CHIP_SELECT = true.
Proof.
  intros Ht Hr. do 5 eexists.
  split; [now apply readStatus_run |].
  split.
  { unfold since, after_status. frame_trace. rewrite (u8_byte t) by assumption.
    reflexivity. }
  split; [rewrite sfr_select_PORTB; apply select_bit |].
  rewrite sfr_release_PORTB; apply release_bit.
Qed.

(** On a bus that answers, [resetController] makes exactly one byte
    exchange between driving chip-select low and driving it high: the RESET
    opcode 0xC0. *)
Theorem resetController_exchanges (fuel : nat) (w : world) :
  responsive fuel (xfers w) 1 = true ->
  exists w' p q rx,
    resetController fuel w = Some (tt, w') /\
    since w w' [Wr PORTB p; Xfer true SPI_RESET rx; Wr PORTB q] /\
    Z.testbit p CHIP_SELECT = false /\
    Z.testbit q CHIP_SELECT = true.
Proof.
  intros Hr. do 4 eexists.
  split; [now apply resetController_run |].
  split; [unfold since, after_reset; frame_trace; reflexivity |].
  split; [rewrite sfr_select_PORTB; apply select_bit |].
  rewrite sfr_release_PORTB; apply release_bit.
Qed.

(** On a bus that answers, [bitModify a m d] makes exactly four byte
    exchanges between driving chip-select low and driving it high: the
    BIT-MODIFY opcode 0x05, the address, the mask and the data, in that
    order. *)
Theorem bitModify_exchanges (fuel : nat) (a m d : Z) (w : world) :
  byte a -> byte m -> byte d ->
  responsive fuel (xfers w) 4 = true ->
  exists w' p q rx1 rx2 rx3 rx4,
    bitModify fuel a m d w = Some (tt, w') /\
    since w w' [Wr PORTB p; Xfer true SPI_BIT_MODIFY rx1; Xfer true a rx2;
                Xfer true m rx3; Xfer true d rx4; Wr PORTB q] /\
    Z.testbit p CHIP_SELECT = false /\
    Z.testbit q CHIP_SELECT = true.
Proof.
  intros Ha Hm Hd Hr. do 7 eexists.
  split; [now apply bitModify_run |].
  split.
  { unfold since, after_bitModify. frame_trace.
    rewrite (u8_byte a), (u8_byte m), (u8_byte d) by assumption. reflexivity. }
  split; [rewrite sfr_select_PORTB; apply select_bit |].
  rewrite sfr_release_PORTB; apply release_bit.
Qed.

(** *** Transactions one after the other *)


(** *** What the functions leave alone *)

(** [sendData] stores to SPDR and to nothing else: every other register,
    the level of chip-select included, is as before; the one event it adds
    is the exchange of its argument, cut to eight bits, for the byte it
    returns. *)
Theorem sendData_frame (fuel : nat) (d : Z) (w : world) (r : Z) (w' : world) :
  sendData fuel d w = Some (r, w') ->
  (forall x, x <> SPDR -> sfr w' x = sfr w x) /\
  sfr w' SPDR = r /\
  cs_asserted w' = cs_asserted w /\
  since w w' [Xfer (cs_asserted w) (u8 d) r].
Proof.
  intros H. apply sendData_inv in H. destruct H as [-> ->].
  split; [intros x Hx; now apply sfr_exchange_other |].
  split; [reflexivity |].
  split; [apply cs_asserted_exchange | unfold since; apply bus_exchange].
Qed.

Lemma transaction_shape (w w' : world) :
  transaction_returns w w' ->
  exists X, w' = release X /\
            forall r, r <> SPDR -> sfr X r = sfr (select w) r.
Proof.
  intros [w1 w1' [f a d w2 w2' H | f a v w2 w2' H | f a m d w2 w2' H
                  | f t v w2 w2' H] | f w1 w1' H].
  - apply writeToRegister_inv in H. subst w2'. eexists.
    split; [reflexivity |]. intros r Hr. now rewrite !sfr_exchange_other.
  - apply readRegister_inv in H. destruct H as [-> _]. eexists.
    split; [reflexivity |]. intros r Hr. now rewrite !sfr_exchange_other.
  - apply bitModify_inv in H. subst w2'. eexists.
    split; [reflexivity |]. intros r Hr. now rewrite !sfr_exchange_other.
  - apply readStatus_inv in H. destruct H as [-> _]. eexists.
    split; [reflexivity |]. intros r Hr. now rewrite !sfr_exchange_other.
  - apply resetController_inv in H. subst w1'. eexists.
    split; [reflexivity |]. intros r Hr. now rewrite !sfr_exchange_other.
Qed.

Lemma select_release_restores (p : Z) :
  byte p -> Z.testbit p CHIP_SELECT = true ->
  u8 (Z.lor (u8 (Z.land p (Z.lnot (bit CHIP_SELECT)))) (bit CHIP_SELECT)) = p.
Proof.
  intros Hp Hb. apply Z.bits_inj'. intros i Hi.
  destruct (Z.eq_dec i CHIP_SELECT) as [-> | Hne].
  - now rewrite release_bit, Hb.
  - destruct (Z.ltb_spec i 8) as [Hlt | Hge].
    + apply select_release_other_bits; [lia | assumption].
    + rewrite u8_testbit. replace (i <? 8) with false by (symmetry; apply Z.ltb_ge; lia).
      cbn [andb]. rewrite <- (u8_byte p Hp), u8_testbit.
      replace (i <? 8) with false by (symmetry; apply Z.ltb_ge; lia).
      reflexivity.
Qed.

(** A transaction entered with chip-select released and PORTB holding a
    byte gives back every register but SPDR exactly as it found it, PORTB
    included. *)
Theorem transaction_restores_registers (w w' : world) :
  transaction_returns w w' ->
  byte (sfr w PORTB) ->
  cs_asserted w = false ->
  forall r, r <> SPDR -> sfr w' r = sfr w r.
Proof.
  intros H Hp Hcs r Hr.
  apply transaction_shape in H. destruct H as [X [-> HX]].
  destruct (reg_eq_dec r PORTB) as [-> | Hne].
  - rewrite sfr_release_PORTB, HX, sfr_select_PORTB by discriminate.
    apply select_release_restores; [assumption |].
    unfold cs_asserted in Hcs. now apply negb_false_iff in Hcs.
  - now rewrite sfr_release_other, HX, sfr_select_other.
Qed.

(** *** The registers initController leaves behind *)

Lemma sfr_pause us w r : sfr (pause us w) r = sfr w r.
Proof. reflexivity. Qed.

Lemma sfr_after_init_other w r :
  r <> SPDR -> r <> PORTB -> sfr (after_init w) r = sfr (setup w) r.
Proof.
  intros Hd Hp. unfold after_init.
  rewrite !sfr_exchange_other, sfr_select_other, sfr_pause by assumption.
  unfold after_reset.
  now rewrite sfr_release_other, sfr_exchange_other, sfr_select_other.
Qed.

Lemma sfr_after_init_PORTB w :
  sfr (after_init w) PORTB =
  u8 (Z.land
        (u8 (Z.lor (u8 (Z.land (sfr (setup w) PORTB) (Z.lnot (bit CHIP_SELECT))))
               (bit CHIP_SELECT)))
        (Z.lnot (bit CHIP_SELECT))).
Proof.
  unfold after_init.
  rewrite !sfr_exchange_other, sfr_select_PORTB, sfr_pause by discriminate.
  unfold after_reset.
  now rewrite sfr_release_PORTB, sfr_exchange_other, sfr_select_PORTB
    by discriminate.
Qed.

Ltac setup_value :=
  unfold setup, release; cbv zeta;
  repeat first [ rewrite sfr_store_same by discriminate
               | rewrite sfr_store_other by discriminate ];
  reflexivity.

Lemma sfr_setup_PORTB w :
  sfr (setup w) PORTB =
  u8 (Z.land (u8 (Z.lor (sfr w PORTB) (bit CHIP_SELECT)))
        (Z.lnot (Z.lor (Z.lor (bit SERIAL_CLK) (bit MOSI)) (bit MISO)))).
Proof. setup_value. Qed.

Lemma sfr_setup_DDRB w :
  sfr (setup w) DDRB =
  u8 (Z.land
        (u8 (Z.lor (u8 (Z.lor (sfr w DDRB) (bit CHIP_SELECT)))
               (Z.lor (bit SERIAL_CLK) (bit MOSI))))
        (Z.lnot (bit MISO))).
Proof. setup_value. Qed.

Lemma sfr_setup_DDRD w :
  sfr (setup w) DDRD = u8 (Z.land (sfr w DDRD) (Z.lnot (bit INTERRUPT_LOW))).
Proof. setup_value. Qed.

Lemma sfr_setup_PORTD w :
  sfr (setup w) PORTD = u8 (Z.lor (sfr w PORTD) (bit INTERRUPT_LOW)).
Proof. setup_value. Qed.

Lemma sfr_setup_SPCR w :
  sfr (setup w) SPCR =
  u8 (Z.lor (Z.lor (Z.lor (Z.lor (Z.shiftl 1 SPE) (Z.shiftl 0 DORD))
                      (Z.shiftl 1 MSTR)) (Z.shiftl 0 SPR1))
        (Z.shiftl 1 SPR0)).
Proof. setup_value. Qed.

Lemma sfr_setup_SPSR w : sfr (setup w) SPSR = 0.
Proof. setup_value. Qed.

Ltac pin_bits :=
  repeat (progress
    (rewrite ?u8_testbit, ?Z.land_spec, ?Z.lor_spec;
     try rewrite Z.lnot_spec by lia;
     try rewrite bit_testbit
       by (unfold CHIP_SELECT, SERIAL_CLK, MOSI, MISO, INTERRUPT_LOW; lia)));
  unfold CHIP_SELECT, SERIAL_CLK, MOSI, MISO, INTERRUPT_LOW.

Ltac each_bit i Hi :=
  assert (C : i = 0 \/ i = 1 \/ i = 2 \/ i = 3 \/ i = 4 \/ i = 5 \/ i = 6 \/ i = 7)
    by lia;
  clear Hi;
  destruct C as [-> | [-> | [-> | [-> | [-> | [-> | [-> | ->]]]]]]];
  pin_bits; cbn -[Z.testbit];
  repeat match goal with
         | |- context [Z.testbit ?p ?n] => destruct (Z.testbit p n)
         end;
  reflexivity.

Lemma init_PORTB_bits (p i : Z) :
  0 <= i < 8 ->
  Z.testbit
    (u8 (Z.land
           (u8 (Z.lor
                  (u8 (Z.land
                         (u8 (Z.land (u8 (Z.lor p (bit CHIP_SELECT)))
                                (Z.lnot (Z.lor (Z.lor (bit SERIAL_CLK) (bit MOSI))
                                           (bit MISO)))))
                         (Z.lnot (bit CHIP_SELECT))))
                  (bit CHIP_SELECT)))
           (Z.lnot (bit CHIP_SELECT)))) i
  = if (i =? CHIP_SELECT) || (i =? SERIAL_CLK) || (i =? MOSI) || (i =? MISO)
    then false else Z.testbit p i.
Proof. intros Hi. each_bit i Hi. Qed.

Lemma init_DDRB_bits (p i : Z) :
  0 <= i < 8 ->
  Z.testbit
    (u8 (Z.land
           (u8 (Z.lor (u8 (Z.lor p (bit CHIP_SELECT)))
                  (Z.lor (bit SERIAL_CLK) (bit MOSI))))
           (Z.lnot (bit MISO)))) i
  = if (i =? CHIP_SELECT) || (i =? SERIAL_CLK) || (i =? MOSI) then true
    else if i =? MISO then false else Z.testbit p i.
Proof. intros Hi. each_bit i Hi. Qed.

Lemma init_DDRD_bits (p i : Z) :
  0 <= i < 8 ->
  Z.testbit (u8 (Z.land p (Z.lnot (bit INTERRUPT_LOW)))) i
  = if i =? INTERRUPT_LOW then false else Z.testbit p i.
Proof. intros Hi. each_bit i Hi. Qed.

Lemma init_PORTD_bits (p i : Z) :
  0 <= i < 8 ->
  Z.testbit (u8 (Z.lor p (bit INTERRUPT_LOW))) i
  = if i =? INTERRUPT_LOW then true else Z.testbit p i.
Proof. intros Hi. each_bit i Hi. Qed.

(** When [initController] returns, of the eight bits of each port register:
    DDRB has bits CHIP_SELECT, SERIAL_CLK and MOSI set and bit MISO clear;
    PORTB has these four bits clear; DDRD has bit INTERRUPT_LOW clear and
    PORTD has it set; every other bit of the four registers is as it was. *)
Theorem initController_pins
  (fuel : nat) (w : world) (v : Z) (w' : world) (i : Z) :
  initController fuel w = Some (v, w') ->
  0 <= i < 8 ->
  Z.testbit (sfr w' DDRB) i
  = (if (i =? CHIP_SELECT) || (i =? SERIAL_CLK) || (i =? MOSI) then true
     else if i =? MISO then false else Z.testbit (sfr w DDRB) i) /\
  Z.testbit (sfr w' PORTB) i
  = (if (i =? CHIP_SELECT) || (i =? SERIAL_CLK) || (i =? MOSI) || (i =? MISO)
     then false else Z.testbit (sfr w PORTB) i) /\
  Z.testbit (sfr w' DDRD) i
  = (if i =? INTERRUPT_LOW then false else Z.testbit (sfr w DDRD) i) /\
  Z.testbit (sfr w' PORTD) i
  = (if i =? INTERRUPT_LOW then true else Z.testbit (sfr w PORTD) i).
Proof.
  intros H Hi. apply initController_inv in H. destruct H as [-> _].
  split; [| split; [| split]].
  - rewrite sfr_after_init_other, sfr_setup_DDRB by discriminate.
    now apply init_DDRB_bits.
  - rewrite sfr_after_init_PORTB, sfr_setup_PORTB.
    now apply init_PORTB_bits.
  - rewrite sfr_after_init_other, sfr_setup_DDRD by discriminate.
    now apply init_DDRD_bits.
  - rewrite sfr_after_init_other, sfr_setup_PORTD by discriminate.
    now apply init_PORTD_bits.
Qed.

(** When [initController] returns, SPCR holds exactly
    [(1<<SPE) | (1<<MSTR) | (1<<SPR0)], cut to eight bits, whatever it held
    before (the terms [0<<DORD] and [0<<SPR1] add nothing), and the value
    stored to SPSR is 0. *)
Theorem initController_spi_unit
  (fuel : nat) (w : world) (v : Z) (w' : world) :
  initController fuel w = Some (v, w') ->
  sfr w' SPCR = u8 (Z.lor (Z.lor (bit SPE) (bit MSTR)) (bit SPR0)) /\
  sfr w' SPSR = 0.
Proof.
  intros H. apply initController_inv in H. destruct H as [-> _].
  rewrite !sfr_after_init_other by discriminate.
  rewrite sfr_setup_SPCR, sfr_setup_SPSR.
  split; [| reflexivity].
  unfold bit. now rewrite !Z.shiftl_0_l, !Z.lor_0_r.
Qed.

(** *** The transaction that follows initController *)

Lemma select_again (p : Z) :
  u8 (Z.land (u8 (Z.land p (Z.lnot (bit CHIP_SELECT)))) (Z.lnot (bit CHIP_SELECT)))
  = u8 (Z.land p (Z.lnot (bit CHIP_SELECT))).
Proof.
  apply Z.bits_inj'. intros i Hi.
  rewrite !u8_testbit, !Z.land_spec, u8_testbit, Z.land_spec.
  destruct (i <? 8); cbn [andb]; [| reflexivity].
  now rewrite <- andb_assoc, andb_diag.
Qed.

Lemma transaction_first_store (w w' : world) :
  transaction_returns w w' ->
  exists tr, since w w' (Wr PORTB (sfr (select w) PORTB) :: tr).
Proof.
  intros [w1 w1' [f a d w2 w2' H | f a v w2 w2' H | f a m d w2 w2' H
                  | f t v w2 w2' H] | f w1 w1' H].
  - apply writeToRegister_inv in H. subst w2'. eexists.
    unfold since, after_write. frame_trace. reflexivity.
  - apply readRegister_inv in H. destruct H as [-> _]. eexists.
    unfold since, after_read. frame_trace. reflexivity.
  - apply bitModify_inv in H. subst w2'. eexists.
    unfold since, after_bitModify. frame_trace. reflexivity.
  - apply readStatus_inv in H. destruct H as [-> _]. eexists.
    unfold since, after_status. frame_trace. reflexivity.
  - apply resetController_inv in H. subst w1'. eexists.
    unfold since, after_reset. frame_trace. reflexivity.
Qed.

(** The transaction called right after [initController] finds chip-select
    already low: the store that should open it writes to PORTB the value
    PORTB already holds, so the chip-select line does not move before the
    first byte of the new command is sent. *)
Theorem no_select_edge_after_init
  (fuel : nat) (w : world) (v : Z) (w1 w2 : world) :
  initController fuel w = Some (v, w1) ->
  transaction_returns w1 w2 ->
  cs_asserted w1 = true /\
  exists tr, since w1 w2 (Wr PORTB (sfr w1 PORTB) :: tr).
Proof.
  intros H Ht. apply initController_inv in H. destruct H as [-> _].
  split; [apply cs_asserted_after_init |].
  destruct (transaction_first_store _ _ Ht) as [tr Htr].
  exists tr.
  assert (E : sfr (select (after_init w)) PORTB = sfr (after_init w) PORTB).
  { rewrite sfr_select_PORTB, sfr_after_init_PORTB. apply select_again. }
  now rewrite <- E.
Qed.

End Further.

(** ** The further theorems at work on the concrete board *)

Lemma readStatus_exchanges_witness :
  exists v w' p q rx1,
    @readStatus uno bench_ok 5 160 w0 = Some (v, w') /\
    since w0 w' [Wr PORTB p; Xfer true 160 rx1; Xfer true 255 v; Wr PORTB q].
Proof.
  destruct (@readStatus_exchanges uno bench_ok 5 160 w0)
    as [v [w' [p [q [rx1 [H1 [H2 _]]]]]]].
  - unfold byte; lia.
  - reflexivity.
  - exists v, w', p, q, rx1. split; [exact H1 | exact H2].
Defined.

Lemma resetController_exchanges_witness :
  exists w' p q rx,
    @resetController uno bench_ok 5 w0 = Some (tt, w') /\
    since w0 w' [Wr PORTB p; Xfer true 192 rx; Wr PORTB q].
Proof.
  destruct (@resetController_exchanges uno bench_ok 5 w0 eq_refl)
    as [w' [p [q [rx [H1 [H2 _]]]]]].
  exists w', p, q, rx. split; [exact H1 | exact H2].
Defined.

Lemma bitModify_exchanges_witness :
  exists w' p q rx1 rx2 rx3 rx4,
    @bitModify uno bench_ok 5 15 15 165 w0 = Some (tt, w') /\
    since w0 w' [Wr PORTB p; Xfer true 5 rx1; Xfer true 15 rx2;
                 Xfer true 15 rx3; Xfer true 165 rx4; Wr PORTB q].
Proof.
  destruct (@bitModify_exchanges uno bench_ok 5 15 15 165 w0)
    as [w' [p [q [rx1 [rx2 [rx3 [rx4 [H1 [H2 _]]]]]]]]].
  - unfold byte; lia.
  - unfold byte; lia.
  - unfold byte; lia.
  - reflexivity.
  - exists w', p, q, rx1, rx2, rx3, rx4. split; [exact H1 | exact H2].
Defined.


Lemma sendData_frame_witness :
  sfr (exchange (bench:=bench_ok) 7 w_released) PORTB = 4 /\
  cs_asserted (exchange (bench:=bench_ok) 7 w_released) = false.
Proof.
  assert (H : @sendData uno bench_ok 5 7 w_released
              = Some (255, exchange (bench:=bench_ok) 7 w_released)).
  { vm_compute. reflexivity. }
  destruct (@sendData_frame uno bench_ok 5 7 w_released _ _ H) as [H1 [_ [H3 _]]].
  split; [rewrite H1 by discriminate; reflexivity | rewrite H3; reflexivity].
Defined.

Lemma transaction_restores_registers_witness :
  sfr (after_write (bench:=bench_ok) 40 1 w_released) PORTB = 4.
Proof.
  assert (H : @transaction_returns uno bench_ok w_released
                (after_write (bench:=bench_ok) 40 1 w_released)).
  { apply access_transaction.
    apply (@write_returns uno bench_ok 5 40 1). vm_compute. reflexivity. }
  rewrite (@transaction_restores_registers uno bench_ok _ _ H).
  - reflexivity.
  - unfold byte. cbn. lia.
  - reflexivity.
  - discriminate.
Defined.

Lemma initController_pins_witness :
  Z.testbit (sfr (after_init (board:=uno) (bench:=bench_ok) w0) DDRB) 5 = true /\
  Z.testbit (sfr (after_init (board:=uno) (bench:=bench_ok) w0) DDRB) 3 = false /\
  Z.testbit (sfr (after_init (board:=uno) (bench:=bench_ok) w0) PORTD) 2 = true.
Proof.
  assert (H : @initController uno bench_ok 5 w0
              = Some (255, after_init (board:=uno) (bench:=bench_ok) w0)).
  { vm_compute. reflexivity. }
  split; [| split].
  - apply (@initController_pins uno bench_ok 5 w0 _ _ 5 H). lia.
  - apply (@initController_pins uno bench_ok 5 w0 _ _ 3 H). lia.
  - apply (@initController_pins uno bench_ok 5 w0 _ _ 2 H). lia.
Defined.

Lemma initController_spi_unit_witness :
  sfr (after_init (board:=uno) (bench:=bench_ok) w0) SPCR = 81.
Proof.
  assert (H : @initController uno bench_ok 5 w0
              = Some (255, after_init (board:=uno) (bench:=bench_ok) w0)).
  { vm_compute. reflexivity. }
  rewrite (proj1 (@initController_spi_unit uno bench_ok 5 w0 _ _ H)).
  reflexivity.
Defined.

Lemma no_select_edge_after_init_witness :
  exists tr,
    since (after_init (board:=uno) (bench:=bench_ok) w0)
          (after_write (bench:=bench_ok) 40 1
             (after_init (board:=uno) (bench:=bench_ok) w0))
          (Wr PORTB 0 :: tr).
Proof.
  assert (H : @initController uno bench_ok 5 w0
              = Some (255, after_init (board:=uno) (bench:=bench_ok) w0)).
  { vm_compute. reflexivity. }
  assert (T : @transaction_returns uno bench_ok
                (after_init (board:=uno) (bench:=bench_ok) w0)
                (after_write (bench:=bench_ok) 40 1
                   (after_init (board:=uno) (bench:=bench_ok) w0))).
  { apply access_transaction.
    apply (@write_returns uno bench_ok 5 40 1). vm_compute. reflexivity. }
  destruct (@no_select_edge_after_init uno bench_ok 5 w0 _ _ _ H T)
    as [_ [tr Htr]].
  exists tr. exact Htr.
Defined.
